(** * SmartProductScraper (json_bowtech.py): a shallow embedding

    The crawler, the URL clean-up, the media-link filter, the JSON-LD
    extractor with its flattening, and the harvest loop of
    [src/scrapper_json/json_bowtech.py], with the libraries the script
    calls (requests, BeautifulSoup, urllib, json) taken as an explicit
    world.  Strings are byte strings and text is taken to be ASCII: case
    folding, word characters and white space are the ASCII ones. *)

From Stdlib Require Import ZArith Lia Bool Ascii String List DecimalString.
From stdpp Require Import base option list sets gmap strings relations.

Set Warnings "-register-all".

Local Open Scope string_scope.
Local Open Scope list_scope.

(** ** Python string helpers *)

Module PyStr.

(** [s.split(sep)] for a one-character separator: the pieces between the
    occurrences of [sep]; never the empty list. *)
Fixpoint split (sep : ascii) (s : string) : list string :=
  match s with
  | EmptyString => [EmptyString]
  | String c s' =>
      if Ascii.eqb c sep then EmptyString :: split sep s'
      else match split sep s' with
           | piece :: pieces => String c piece :: pieces
           | [] => [String c EmptyString]
           end
  end.

(** [l[0]] on the list [split] returns. *)
Definition first (l : list string) : string :=
  match l with
  | piece :: _ => piece
  | [] => EmptyString
  end.

(** [c in s] for a character. *)
Fixpoint contains (c : ascii) (s : string) : bool :=
  match s with
  | EmptyString => false
  | String a s' => Ascii.eqb a c || contains c s'
  end.

(** [sep.join(l)]. *)
Fixpoint join (sep : string) (l : list string) : string :=
  match l with
  | [] => EmptyString
  | [x] => x
  | x :: rest => x +:+ sep +:+ join sep rest
  end.

(** ASCII lower-casing of one character, as [re.IGNORECASE] compares. *)
Definition lower (c : ascii) : ascii :=
  let n := nat_of_ascii c in
  if (Nat.leb 65 n && Nat.leb n 90)%bool then ascii_of_nat (n + 32)%nat else c.

(** [[a-zA-Z0-9_]]: the characters [\b] takes for word characters. *)
Definition is_word (c : ascii) : bool :=
  let n := nat_of_ascii c in
  ((Nat.leb 48 n && Nat.leb n 57) || (Nat.leb 65 n && Nat.leb n 90)
   || (Nat.leb 97 n && Nat.leb n 122) || Nat.eqb n 95)%bool.

(** [c.isspace()] on ASCII: tab to carriage return, the four separators,
    and the space. *)
Definition is_space (c : ascii) : bool :=
  let n := nat_of_ascii c in
  ((Nat.leb 9 n && Nat.leb n 13) || (Nat.leb 28 n && Nat.leb n 32))%bool.

(** [s.split()]: the maximal runs of non-space characters. *)
Fixpoint words_aux (cur : string) (s : string) : list string :=
  match s with
  | EmptyString => if String.eqb cur EmptyString then [] else [cur]
  | String c s' =>
      if is_space c
      then (if String.eqb cur EmptyString then words_aux EmptyString s'
            else cur :: words_aux EmptyString s')
      else words_aux (cur +:+ String c EmptyString) s'
  end.

Definition words (s : string) : list string := words_aux EmptyString s.

(** [str(i)] for an int. *)
Definition of_Z (z : Z) : string := NilZero.string_of_int (Z.to_int z).

Definition of_nat (n : nat) : string := of_Z (Z.of_nat n).

End PyStr.

(** ** The fragment of [re] the script uses

    [re.search(pattern, s, flags)] is only used for its truth value, so a
    backtracking acceptor is enough: greedy or lazy makes no difference. *)

Module Re.

Inductive regex : Type :=
| Eps                          (* the empty pattern *)
| Chr (c : ascii)              (* a literal character *)
| DotStar                      (* [.*]: any run of characters but newlines *)
| WordB                        (* [\b] *)
| Ahead (r : regex)            (* [(?=r)] *)
| Seq (r1 r2 : regex)
| Alt (r1 r2 : regex).

(** A literal string as a sequence of [Chr]. *)
Fixpoint lit (s : string) : regex :=
  match s with
  | EmptyString => Eps
  | String c s' => Seq (Chr c) (lit s')
  end.

Definition chr_eq (ignorecase : bool) (c a : ascii) : bool :=
  if ignorecase then Ascii.eqb (PyStr.lower c) (PyStr.lower a) else Ascii.eqb c a.

(** Is the character before ([prev]) or the one after (head of [s]) a word
    character?  Outside the string counts as a non-word character. *)
Definition word_before (prev : option ascii) : bool :=
  match prev with Some c => PyStr.is_word c | None => false end.

Definition word_after (s : string) : bool :=
  match s with String c _ => PyStr.is_word c | EmptyString => false end.

Definition at_boundary (prev : option ascii) (s : string) : bool :=
  xorb (word_before prev) (word_after s).

(** [accept ic r prev s k]: some match of [r] that starts at [s] (with [prev]
    the character just before) leaves a rest that [k] accepts. *)
Fixpoint accept (ic : bool) (r : regex) (prev : option ascii) (s : string)
    (k : option ascii -> string -> bool) {struct r} : bool :=
  match r with
  | Eps => k prev s
  | Chr c =>
      match s with
      | String a s' => chr_eq ic c a && k (Some a) s'
      | EmptyString => false
      end
  | DotStar =>
      (fix run (prev : option ascii) (s : string) {struct s} : bool :=
         k prev s ||
         match s with
         | String a s' =>
             if Ascii.eqb a "010"%char then false else run (Some a) s'
         | EmptyString => false
         end) prev s
  | WordB => at_boundary prev s && k prev s
  | Ahead r' => accept ic r' prev s (fun _ _ => true) && k prev s
  | Seq r1 r2 => accept ic r1 prev s (fun p' s' => accept ic r2 p' s' k)
  | Alt r1 r2 => accept ic r1 prev s k || accept ic r2 prev s k
  end.

(** The scan of [re.search]: try every start position, left to right. *)
Fixpoint scan (ic : bool) (r : regex) (prev : option ascii) (s : string) : bool :=
  accept ic r prev s (fun _ _ => true) ||
  match s with
  | String a s' => scan ic r (Some a) s'
  | EmptyString => false
  end.

(** [bool(re.search(r, s, flags))]. *)
Definition search (ic : bool) (r : regex) (s : string) : bool := scan ic r None s.

End Re.

(** ** URL helpers of the scraper *)

(** [r"/products/"] and [r"/collections/.*/products/"]. *)
Definition product_patterns : list Re.regex :=
  [ Re.lit "/products/";
    Re.Seq (Re.lit "/collections/") (Re.Seq Re.DotStar (Re.lit "/products/")) ].

(** [is_product_url]: any of the patterns is found in the URL. *)
Definition is_product_url (url : string) : bool :=
  existsb (fun pattern => Re.search false pattern url) product_patterns.

(** The extensions of the media pattern, in the order of its alternation. *)
Definition media_exts : list string :=
  ["jpg"; "jpeg"; "png"; "gif"; "bmp"; "svg"; "webp"].

(** [(jpg|jpeg|png|gif|bmp|svg|webp)]. *)
Definition ext_alt : Re.regex :=
  Re.Alt (Re.lit "jpg") (Re.Alt (Re.lit "jpeg") (Re.Alt (Re.lit "png")
  (Re.Alt (Re.lit "gif") (Re.Alt (Re.lit "bmp") (Re.Alt (Re.lit "svg")
  (Re.lit "webp")))))).

(** [(\b|(?=\?))]. *)
Definition media_tail : Re.regex := Re.Alt Re.WordB (Re.Ahead (Re.Chr "?")).

(** [r"\b\.(jpg|jpeg|png|gif|bmp|svg|webp)(\b|(?=\?))"]. *)
Definition media_pattern : Re.regex :=
  Re.Seq Re.WordB (Re.Seq (Re.Chr ".") (Re.Seq ext_alt media_tail)).

(** The test of [get_all_links] on a cleaned URL:
    [re.search(media_pattern, clean_url, re.IGNORECASE)], as it is on ASCII
    text.  On other text [re] folds case and takes word characters by
    Unicode, which byte strings do not show. *)
Definition is_media_file (clean_url : string) : bool :=
  Re.search true media_pattern clean_url.

(** [url.split("#")[0]] then [.split("?")[0]]. *)
Definition clean_url (url : string) : string :=
  let clean := PyStr.first (PyStr.split "#" url) in
  PyStr.first (PyStr.split "?" clean).

(** ** JSON values and Python dicts *)

(** What [json.loads] returns.  A float is kept by its [str] rendering, the
    only thing the script does with one. *)
Inductive json : Type :=
| JNull
| JBool (b : bool)
| JInt (n : Z)
| JFloat (repr : string)
| JStr (s : string)
| JList (items : list json)
| JDict (entries : list (string * json)).

(** A [dict] with string keys: its items in insertion order, keys unique. *)
Definition pydict (V : Type) : Type := list (string * V).

Section Dict.
Context {V : Type}.

(** [d.get(k)]. *)
Fixpoint dict_get (k : string) (d : pydict V) : option V :=
  match d with
  | [] => None
  | (k', v) :: d' => if String.eqb k' k then Some v else dict_get k d'
  end.

(** [k in d]. *)
Definition dict_has (k : string) (d : pydict V) : bool :=
  match dict_get k d with Some _ => true | None => false end.

(** [d[k] = v]: a present key keeps its place, a new key goes last. *)
Fixpoint dict_set (k : string) (v : V) (d : pydict V) : pydict V :=
  match d with
  | [] => [(k, v)]
  | (k', v') :: d' =>
      if String.eqb k' k then (k', v) :: d' else (k', v') :: dict_set k v d'
  end.

(** [d.update(items)]. *)
Definition dict_update (d : pydict V) (items : list (string * V)) : pydict V :=
  fold_left (fun acc kv => dict_set kv.1 kv.2 acc) items d.

(** [dict(items)]. *)
Definition dict_of_items (items : list (string * V)) : pydict V :=
  dict_update [] items.
End Dict.

(** [isinstance(x, (str, int, float))]; a [bool] is an [int]. *)
Definition is_str_int_float (x : json) : bool :=
  match x with
  | JStr _ | JInt _ | JFloat _ | JBool _ => true
  | JNull | JList _ | JDict _ => false
  end.

(** [str(x)] for the values that pass [is_str_int_float]. *)
Definition py_str (x : json) : string :=
  match x with
  | JStr s => s
  | JInt n => PyStr.of_Z n
  | JFloat repr => repr
  | JBool true => "True"
  | JBool false => "False"
  | JNull => "None"
  | JList _ | JDict _ => ""
  end.

(** [f"{parent_key}{sep}{k}" if parent_key else k]. *)
Definition new_key_of (parent_key sep k : string) : string :=
  if String.eqb parent_key "" then k else parent_key +:+ sep +:+ k.

(** [_flatten_dict(d, parent_key, sep)].  It is only ever called on a dict;
    the loop [items] walks [d.items()] and the loop [each] is the
    [enumerate(v)] of the mixed-list branch. *)
Fixpoint flatten_dict (d : json) (parent_key sep : string) {struct d}
    : pydict json :=
  match d with
  | JDict entries =>
      dict_of_items
        ((fix items (entries : list (string * json)) : list (string * json) :=
            match entries with
            | [] => []
            | (k, v) :: rest =>
                let new_key := new_key_of parent_key sep k in
                match v with
                | JDict _ => flatten_dict v new_key sep
                | JList l =>
                    if forallb is_str_int_float l
                    then [(new_key, JStr (PyStr.join ", " (map py_str l)))]
                    else
                      (fix each (i : nat) (l : list json) : list (string * json) :=
                         match l with
                         | [] => []
                         | item :: l' =>
                             match item with
                             | JDict _ =>
                                 flatten_dict item
                                   (new_key +:+ sep +:+ PyStr.of_nat i) sep
                             | _ => []
                             end ++ each (S i) l'
                         end) 0%nat l
                | _ => [(new_key, v)]
                end ++ items rest
            end) entries)
  | _ => []
  end.

(** ** Exceptions *)

Inductive exn : Type :=
| TypeError
| ValueError
| RecursionError
| RequestException
| URLError
| ParserRejectedMarkup       (* [BeautifulSoup(...)] could not parse the body *)
| UnicodeEncodeError
| OSError.

Inductive outcome (A : Type) : Type :=
| Return (a : A)
| Raise (e : exn).
Arguments Return {A} a.
Arguments Raise {A} e.

(** Sequencing: an exception skips the rest. *)
#[global] Instance outcome_bind : MBind outcome := fun A B f m =>
  match m with
  | Return a => f a
  | Raise e => Raise e
  end.

(** ** The page, as the script looks at it *)

(** A [BeautifulSoup] object, by the queries the script makes of it. *)
Record Soup : Type := {
  (* [a["href"]] of every [soup.find_all("a", href=True)], in page order *)
  a_hrefs : list string;
  (* [script.string] of every [soup.find_all("script",
     type="application/ld+json")]: [None] for a tag that does not hold
     exactly one string, an empty tag among them *)
  ld_json_scripts : list (option string);
  (* [soup.find("meta", {"property": name})]: the tag's [get("content")]
     when there is such a tag *)
  find_meta_property : string -> option (option string);
  (* [soup.find("meta", {"name": name})], likewise *)
  find_meta_name : string -> option (option string);
  (* [soup.select_one(selector)]: the element's [get_text(strip=True)] *)
  select_one : string -> option string
}.

(** ** Structured-data extraction *)

Definition meta_tags : list (string * list string) :=
  [ ("title", ["og:title"; "twitter:title"; "title"]);
    ("description", ["og:description"; "description"; "twitter:description"]);
    ("price", ["product:price:amount"; "og:price:amount"]);
    ("currency", ["product:price:currency"; "og:price:currency"]);
    ("availability", ["product:availability"; "og:availability"]);
    ("image", ["og:image"; "twitter:image"]) ].

Definition selectors : list (string * list string) :=
  [ ("price", [".price"; ".product-price"; "[data-product-price]"]);
    ("title", ["h1"; ".product-title"; ".product-name"]);
    ("sku", [".sku"; "[data-product-sku]"]);
    ("description", [".product-description"; "#product-description"]) ].

(** The inner loop over [meta_names], up to its [break]. *)
Fixpoint first_meta (soup : Soup) (meta_names : list string) : option string :=
  match meta_names with
  | [] => None
  | name :: rest =>
      let meta :=
        match find_meta_property soup name with
        | Some tag => Some tag
        | None => find_meta_name soup name
        end in
      match meta with
      | Some (Some content) =>
          if String.eqb content "" then first_meta soup rest else Some content
      | _ => first_meta soup rest
      end
  end.

(** The inner loop over [selector_list], up to its [break]. *)
Fixpoint first_selected (soup : Soup) (selector_list : list string) : option string :=
  match selector_list with
  | [] => None
  | selector :: rest =>
      match select_one soup selector with
      | Some text => Some text
      | None => first_selected soup rest
      end
  end.

(** [_extract_fallback_data(soup)]. *)
Definition extract_fallback_data (soup : Soup) : pydict json :=
  let data :=
    fold_left
      (fun data '(key, meta_names) =>
         match first_meta soup meta_names with
         | Some content => dict_set key (JStr content) data
         | None => data
         end)
      meta_tags [] in
  fold_left
    (fun data '(key, selector_list) =>
       if dict_has key data then data
       else match first_selected soup selector_list with
            | Some text => dict_set key (JStr text) data
            | None => data
            end)
    selectors data.

(** [x in ["Product", "WebPage"]] for the value under ["@type"]. *)
Definition is_schema_type (x : option json) : bool :=
  match x with
  | Some (JStr s) => String.eqb s "Product" || String.eqb s "WebPage"
  | _ => false
  end.

(** The [if]/[elif] on the parsed [data] of one script block. *)
Definition merge_block (schema_data : pydict json) (data : json) : pydict json :=
  match data with
  | JDict entries =>
      if dict_has "@type" entries then
        if is_schema_type (dict_get "@type" entries)
        then dict_update schema_data (flatten_dict data "" "_")
        else schema_data
      else schema_data
  | JList l =>
      fold_left
        (fun schema_data item =>
           match item with
           | JDict entries =>
               if is_schema_type (dict_get "@type" entries)
               then dict_update schema_data (flatten_dict item "" "_")
               else schema_data
           | _ => schema_data
           end)
        l schema_data
  | _ => schema_data
  end.

(** What [json.loads] does with a string. *)
Inductive loads_result : Type :=
| Parsed (data : json)
| DecodeError                  (* [json.JSONDecodeError] *)
| LoadsRaises (e : exn).       (* anything else: [RecursionError] on deep
                                  nesting, [ValueError] on an over-long
                                  integer *)

Section Extract.
Variable json_loads : string -> loads_result.

(** The [for script in json_ld] loop of [extract_schema_data].
    [json.loads(None)] raises [TypeError]; the [except
    json.JSONDecodeError] catches neither that nor what else [json.loads]
    raises. *)
Fixpoint scan_scripts (json_ld : list (option string))
    (schema_data : pydict json) : outcome (pydict json) :=
  match json_ld with
  | [] => Return schema_data
  | script_string :: rest =>
      match script_string with
      | None => Raise TypeError
      | Some text =>
          match json_loads text with
          | Parsed data => scan_scripts rest (merge_block schema_data data)
          | DecodeError => scan_scripts rest schema_data
          | LoadsRaises e => Raise e
          end
      end
  end.

(** [extract_schema_data(soup)]. *)
Definition extract_schema_data (soup : Soup) : outcome (pydict json) :=
  schema_data ← scan_scripts (ld_json_scripts soup) [];
  match schema_data with
  | [] => Return (extract_fallback_data soup)
  | _ => Return schema_data
  end.
End Extract.

(** ** [urllib.robotparser.RobotFileParser] *)

(** The fields [can_fetch] reads.  [last_checked] is kept as "non-zero";
    [allowance] stands for the parsed [entries] and [default_entry]: the
    verdict of the rule lines for a user agent and a URL. *)
Record RobotFileParser : Type := {
  rp_url : string;
  disallow_all : bool;
  allow_all : bool;
  last_checked : bool;
  allowance : string -> string -> bool
}.

(** [RobotFileParser()]: nothing read yet, no entries. *)
Definition RobotFileParser_new : RobotFileParser :=
  {| rp_url := ""; disallow_all := false; allow_all := false;
     last_checked := false; allowance := fun _ _ => true |}.

(** What [urlopen(url)], [read()], [decode] and [parse] come to. *)
Inductive robots_response : Type :=
| RobotsRaises (e : exn)          (* [URLError], a timeout, a decoding error *)
| RobotsHTTPError (code : Z)      (* [HTTPError], handled inside [read] *)
| RobotsLines (rules : string -> string -> bool).   (* fetched and parsed *)

(** [rp.can_fetch(useragent, url)].  The third test is the library's "until
    the robots.txt file has been read or found not to exist, we must assume
    that no url is allowable". *)
Definition rp_can_fetch (rp : RobotFileParser) (useragent url : string) : bool :=
  if disallow_all rp then false
  else if allow_all rp then true
  else if negb (last_checked rp) then false
  else allowance rp useragent url.

(** [rp.read()] against the answer of the network. *)
Definition rp_read (resp : robots_response) (rp : RobotFileParser)
    : outcome RobotFileParser :=
  match resp with
  | RobotsRaises e => Raise e
  | RobotsHTTPError code =>
      if (code =? 401)%Z || (code =? 403)%Z then
        Return {| rp_url := rp_url rp; disallow_all := true;
                  allow_all := allow_all rp; last_checked := last_checked rp;
                  allowance := allowance rp |}
      else if (400 <=? code)%Z && (code <? 500)%Z then
        Return {| rp_url := rp_url rp; disallow_all := disallow_all rp;
                  allow_all := true; last_checked := last_checked rp;
                  allowance := allowance rp |}
      else Return rp
  | RobotsLines rules =>
      Return {| rp_url := rp_url rp; disallow_all := disallow_all rp;
                allow_all := allow_all rp; last_checked := true;
                allowance := rules |}
  end.

(** ** The world outside the script *)

Record World : Type := {
  (* [urlparse(url)]: scheme and netloc; [ValueError] on some inputs *)
  urlparse : string -> outcome (string * string);
  (* [urljoin(base, href)] *)
  urljoin : string -> string -> outcome string;
  (* [requests.get(url)], [raise_for_status()] and
     [BeautifulSoup(response.text, "html.parser")], for the n-th request the
     scraper sends; of the exceptions, [ParserRejectedMarkup] is the parse's,
     any other the request's *)
  http_get : nat -> string -> outcome Soup;
  (* the robots.txt behind a URL *)
  robots_txt : string -> robots_response;
  (* [json.loads] *)
  json_loads : string -> loads_result;
  (* [open(output_file, "w")] and [json.dump] of the collection into it:
     the exception when one of them raises *)
  write_output : list (pydict json) -> option exn;
  (* the order in which a [for] loop walks a set *)
  iter_set : gset string -> list string;
  iter_set_elem : forall (X : gset string) (x : string), x ∈ iter_set X <-> x ∈ X;
  iter_set_NoDup : forall X : gset string, NoDup (iter_set X)
}.

(** ** The scraper object *)

Record Scraper : Type := {
  visited_urls : gset string;
  product_urls : gset string;
  robot_parser : option RobotFileParser
}.

(** [SmartProductScraper()]. *)
Definition Scraper_new : Scraper :=
  {| visited_urls := ∅; product_urls := ∅; robot_parser := None |}.

(** [self.headers["User-Agent"]]. *)
Definition user_agent : string :=
  "Mozilla/5.0 (Windows NT 10.0; Win64; x64) AppleWebKit/537.36 (KHTML, like Gecko) Chrome/91.0.4472.124 Safari/537.36".

Section Crawler.
Variable w : World.

(** [read_robots_txt(root_url)].  The parser object is stored in
    [self.robot_parser] before the [try]; whatever [set_url] and [read]
    did to it before an exception stays. *)
Definition read_robots_txt (self : Scraper) (root_url : string)
    : outcome Scraper :=
  parsed_url ← urlparse w root_url;
  let robots_url := parsed_url.1 +:+ "://" +:+ parsed_url.2 +:+ "/robots.txt" in
  let rp0 := RobotFileParser_new in
  let rp1 := {| rp_url := robots_url; disallow_all := disallow_all rp0;
                allow_all := allow_all rp0; last_checked := last_checked rp0;
                allowance := allowance rp0 |} in
  let rp :=
    match urlparse w robots_url with        (* [set_url] *)
    | Raise _ => rp1
    | Return _ =>
        match rp_read (robots_txt w robots_url) rp1 with
        | Return rp2 => rp2
        | Raise _ => rp1
        end
    end in
  Return {| visited_urls := visited_urls self;
            product_urls := product_urls self;
            robot_parser := Some rp |}.

(** [can_fetch(url)]: the answer of a call that returns.  [not
    self.robot_parser] holds of [None] only: a [RobotFileParser] has
    neither [__bool__] nor [__len__].  Past its three early returns the
    library call can also raise, on a URL it cannot parse or quote; that is
    left out, and what is said of the loop is said of turns that complete. *)
Definition can_fetch (self : Scraper) (url : string) : bool :=
  match robot_parser self with
  | None => true
  | Some rp => rp_can_fetch rp user_agent url
  end.

(** [is_same_domain(url, root_domain)]. *)
Definition is_same_domain (url root_domain : string) : outcome bool :=
  a ← urlparse w url;
  b ← urlparse w root_domain;
  Return (String.eqb a.2 b.2).

(** The [for a in soup.find_all("a", href=True)] loop of [get_all_links]. *)
Fixpoint collect_links (hrefs : list string) (root_url : string)
    (links : gset string) : outcome (gset string) :=
  match hrefs with
  | [] => Return links
  | href :: rest =>
      url ← urljoin w root_url href;
      same ← is_same_domain url root_url;
      if (same : bool) then
        let clean := clean_url url in
        if negb (is_media_file clean)
        then collect_links rest root_url ({[ clean ]} ∪ links)
        else collect_links rest root_url links
      else collect_links rest root_url links
  end.

(** [get_all_links(soup, root_url)]. *)
Definition get_all_links (soup : Soup) (root_url : string)
    : outcome (gset string) :=
  collect_links (a_hrefs soup) root_url ∅.

(** The state of the [while] loop of [crawl_site].  [clock] counts the
    requests sent; [visit_log] is a ghost field: the URLs in the order
    [visited_urls.add] was called on them. *)
Record crawl_state : Type := {
  queue : list string;
  scraper : Scraper;
  clock : nat;
  visit_log : list string
}.

(** The links of one page that the inner [for link in new_links] appends. *)
Definition new_queue_entries (self : Scraper) (new_links : gset string)
    : list string :=
  filter
    (fun link => (link ∉ visited_urls self) /\ can_fetch self link = true)
    (iter_set w new_links).

(** One turn of the [while] loop of [crawl_site], the guard apart.  The
    URL is marked visited, and product, once the response is there with a
    good status; [http_get] raises [ParserRejectedMarkup] when it is the
    parse of the body, after the marks, that fails. *)
Definition crawl_body (root_url : string) (st : crawl_state) : crawl_state :=
  match queue st with
  | [] => st
  | current_url :: queue' =>
      let self := scraper st in
      if bool_decide (current_url ∈ visited_urls self)
         || negb (can_fetch self current_url)
      then {| queue := queue'; scraper := self; clock := clock st;
              visit_log := visit_log st |}
      else
        let self' :=
          {| visited_urls := {[ current_url ]} ∪ visited_urls self;
             product_urls :=
               if is_product_url current_url
               then {[ current_url ]} ∪ product_urls self
               else product_urls self;
             robot_parser := robot_parser self |} in
        match http_get w (clock st) current_url with
        | Raise ParserRejectedMarkup =>
            {| queue := queue'; scraper := self'; clock := S (clock st);
               visit_log := visit_log st ++ [current_url] |}
        | Raise _ =>
            {| queue := queue'; scraper := self; clock := S (clock st);
               visit_log := visit_log st |}
        | Return soup =>
            let appended :=
              match get_all_links soup root_url with
              | Return new_links => new_queue_entries self' new_links
              | Raise _ => []
              end in
            {| queue := queue' ++ appended; scraper := self';
               clock := S (clock st);
               visit_log := visit_log st ++ [current_url] |}
        end
  end.

(** [queue and len(self.visited_urls) < max_pages]. *)
Definition crawl_guard (max_pages : Z) (st : crawl_state) : bool :=
  match queue st with
  | [] => false
  | _ :: _ => (Z.of_nat (size (visited_urls (scraper st))) <? max_pages)%Z
  end.

(** A turn of the loop, when there is one. *)
Definition crawl_step (root_url : string) (max_pages : Z) (st : crawl_state)
    : option crawl_state :=
  if crawl_guard max_pages st then Some (crawl_body root_url st) else None.

(** The loop, run for at most [fuel] turns: [None] when they do not
    suffice. *)
Fixpoint crawl_loop (root_url : string) (max_pages : Z) (fuel : nat)
    (st : crawl_state) : option crawl_state :=
  match crawl_step root_url max_pages st with
  | None => Some st
  | Some st' =>
      match fuel with
      | O => None
      | S fuel' => crawl_loop root_url max_pages fuel' st'
      end
  end.

(** [crawl_site] up to its loop: the queue holds the root, both sets are
    cleared, robots.txt is read. *)
Definition crawl_start (self : Scraper) (root_url : string) (now : nat)
    : outcome crawl_state :=
  self' ← read_robots_txt
            {| visited_urls := ∅; product_urls := ∅;
               robot_parser := robot_parser self |} root_url;
  Return {| queue := [root_url]; scraper := self'; clock := now;
            visit_log := [] |}.

(** [crawl_site(root_url, max_pages)]: the state at the [return]. *)
Definition crawl_site (self : Scraper) (root_url : string) (max_pages : Z)
    (now fuel : nat) : outcome (option crawl_state) :=
  st ← crawl_start self root_url now;
  Return (crawl_loop root_url max_pages fuel st).

(** The states the loop passes through. *)
Definition crawl_reach (root_url : string) (max_pages : Z)
    : crawl_state -> crawl_state -> Prop :=
  rtc (fun st st' => crawl_step root_url max_pages st = Some st').

(** ** Harvest *)

(** [scrape_product(url)], as the [now]-th request. *)
Definition scrape_product (now : nat) (url : string) : pydict json :=
  match http_get w now url with
  | Raise _ => []
  | Return soup =>
      match extract_schema_data (json_loads w) soup with
      | Raise _ => []
      | Return product_data => dict_set "url" (JStr url) product_data
      end
  end.

(** [" ".join(value.split())], as it is on ASCII text; [split] also splits
    on the white space of Unicode, which byte strings do not show. *)
Definition collapse_spaces (value : string) : string :=
  PyStr.join " " (PyStr.words value).

(** The loop over [product_data.items()] that rewrites the strings. *)
Definition clean_record (product_data : pydict json) : pydict json :=
  map (fun '(key, value) =>
         match value with
         | JStr s => (key, JStr (collapse_spaces s))
         | _ => (key, value)
         end) product_data.

Record harvest_state : Type := {
  all_products : list (pydict json);
  count : Z;
  hclock : nat
}.

Definition limit : Z := 10.

(** The [try] block of the loop of [scrape_all_products]. *)
Definition harvest_body (url : string) (st : harvest_state) : harvest_state :=
  let product_data := scrape_product (hclock st) url in
  match product_data with
  | [] => {| all_products := all_products st; count := count st;
             hclock := S (hclock st) |}
  | _ :: _ =>
      {| all_products := all_products st ++ [clean_record product_data];
         count := (count st + 1)%Z; hclock := S (hclock st) |}
  end.

(** [for url in product_urls], with its [break]. *)
Fixpoint harvest_loop (urls : list string) (st : harvest_state) : harvest_state :=
  match urls with
  | [] => st
  | url :: rest =>
      if (limit <=? count st)%Z then st
      else harvest_loop rest (harvest_body url st)
  end.

(** [scrape_all_products(root_url)]: what is written to the output file,
    [None] when no file is written.  Opening the file and [json.dump] are
    outside every [try]: what they raise leaves the function. *)
Definition scrape_all_products (self : Scraper) (root_url : string)
    (now fuel : nat) : outcome (option (option (list (pydict json)))) :=
  crawled ← crawl_site self root_url 1000 now fuel;
  match crawled with
  | None => Return None
  | Some st =>
      let product_urls := iter_set w (product_urls (scraper st)) in
      let h := harvest_loop product_urls
                 {| all_products := []; count := 0; hclock := clock st |} in
      match all_products h with
      | [] => Return (Some None)
      | _ :: _ =>
          match write_output w (all_products h) with
          | Some e => Raise e
          | None => Return (Some (Some (all_products h)))
          end
      end
  end.
End Crawler.

(** ** A small site to run the script on *)

Module Shop.

Definition root : string := "https://shop.example/".
Definition bows : string := "https://shop.example/collections/bows".
Definition recurve : string := "https://shop.example/products/recurve".

(** Scheme and netloc of an absolute URL, read off its [/]-separated pieces. *)
Definition parse (url : string) : outcome (string * string) :=
  match PyStr.split "/" url with
  | scheme :: _ :: netloc :: _ => Return (PyStr.first (PyStr.split ":" scheme), netloc)
  | _ => Return ("", "")
  end.

(** Every link of the site is written in full. *)
Definition join (base href : string) : outcome string := Return href.

(** A JSON string literal: [s] between double quotes. *)
Definition q (s : string) : string :=
  String (ascii_of_nat 34) s +:+ String (ascii_of_nat 34) "".

(** The text [{"@type":"Product","name":"Bow","offers":{"price":"199.99"}}]. *)
Definition product_json : string :=
  "{" +:+ q "@type" +:+ ":" +:+ q "Product" +:+ "," +:+ q "name" +:+ ":"
  +:+ q "Bow" +:+ "," +:+ q "offers" +:+ ":{" +:+ q "price" +:+ ":"
  +:+ q "199.99" +:+ "}}".

Definition product_data : json :=
  JDict [("@type", JStr "Product"); ("name", JStr "Bow");
         ("offers", JDict [("price", JStr "199.99")])].

Definition loads (text : string) : loads_result :=
  if String.eqb text product_json then Parsed product_data else DecodeError.

Definition page (hrefs : list string) (scripts : list (option string)) : Soup :=
  {| a_hrefs := hrefs; ld_json_scripts := scripts;
     find_meta_property := fun _ => None; find_meta_name := fun _ => None;
     select_one := fun _ => None |}.

(** The root links to two pages, which link to each other; the product page
    carries one JSON-LD block. *)
Definition get (n : nat) (url : string) : outcome Soup :=
  if String.eqb url root then
    Return (page [bows +:+ "?sort=price"; recurve +:+ "#reviews";
                  "https://shop.example/img/photo.JPG";
                  "https://elsewhere.example/"] [])
  else if String.eqb url bows then Return (page [recurve; root] [])
  else if String.eqb url recurve then Return (page [bows] [Some product_json])
  else Raise RequestException.

Definition world (robots : robots_response) : World :=
  {| urlparse := parse; urljoin := join; http_get := get;
     robots_txt := fun _ => robots; json_loads := loads;
     write_output := fun _ => None;
     iter_set := elements;
     iter_set_elem := fun X x => elem_of_elements X x;
     iter_set_NoDup := fun X => NoDup_elements X |}.

(** robots.txt is served and allows everything. *)
Definition online : World := world (RobotsLines (fun _ _ => true)).

(** robots.txt cannot be fetched: the connection fails. *)
Definition offline : World := world (RobotsRaises URLError).

(** A page whose only JSON-LD tag is empty. *)
Definition empty_script_page : Soup := page [] [None].

(** A page with an empty JSON-LD tag before a good one. *)
Definition empty_then_good_page : Soup := page [] [None; Some product_json].

(** The page behind the root, and the links [get_all_links] keeps of it. *)
Definition root_page : Soup :=
  page [bows +:+ "?sort=price"; recurve +:+ "#reviews";
        "https://shop.example/img/photo.JPG"; "https://elsewhere.example/"] [].

Definition root_links : gset string := {[ bows; recurve ]}.

(** What a run on the site writes to the output file. *)
Definition output : list (pydict json) :=
  [[("@type", JStr "Product"); ("name", JStr "Bow");
    ("offers_price", JStr "199.99"); ("url", JStr recurve)]].

(** A title as a page may have it: a tab, a line break, runs of spaces. *)
Definition spaced_title : string :=
  String "009" " Recurve" +:+ String "010" "  Bow ".

(** A page with a broken block before a good one. *)
Definition broken_then_good_page : Soup :=
  page [] [Some ("{" +:+ q "@type" +:+ ":"); Some product_json].

(** [crawl_site] from the root, as the loop is entered, robots.txt read. *)
Definition start : crawl_state :=
  {| queue := [root];
     scraper := {| visited_urls := ∅; product_urls := ∅;
                   robot_parser :=
                     Some {| rp_url := "https://shop.example/robots.txt";
                             disallow_all := false; allow_all := false;
                             last_checked := true;
                             allowance := fun _ _ => true |} |};
     clock := 0; visit_log := [] |}.

(** The same with robots.txt out of reach: the parser has read nothing. *)
Definition offline_start : crawl_state :=
  {| queue := [root];
     scraper := {| visited_urls := ∅; product_urls := ∅;
                   robot_parser :=
                     Some {| rp_url := "https://shop.example/robots.txt";
                             disallow_all := false; allow_all := false;
                             last_checked := false;
                             allowance := fun _ _ => true |} |};
     clock := 0; visit_log := [] |}.

(** The loop there after its one turn: the root was refused. *)
Definition offline_end : crawl_state :=
  {| queue := []; scraper := scraper offline_start; clock := 0; visit_log := [] |}.

(** The loop after its first turn, and when it has ended. *)
Definition after_root : crawl_state := crawl_body online root start.

Definition after_two : crawl_state := crawl_body online root after_root.

Definition final : crawl_state :=
  default start (crawl_loop online root 1000 10 start).

(** A root URL that carries a query. *)
Definition root_with_query : string := "https://shop.example/?ref=home".

(** The same site, entered by a root URL with a query: the page behind it
    links to itself. *)
Definition get_from_query (n : nat) (url : string) : outcome Soup :=
  if String.eqb url root_with_query then Return (page [root_with_query] [])
  else get n url.

Definition online_from_query : World :=
  {| urlparse := parse; urljoin := join; http_get := get_from_query;
     robots_txt := fun _ => RobotsLines (fun _ _ => true); json_loads := loads;
     write_output := fun _ => None;
     iter_set := elements;
     iter_set_elem := fun X x => elem_of_elements X x;
     iter_set_NoDup := fun X => NoDup_elements X |}.

Definition query_start : crawl_state :=
  {| queue := [root_with_query]; scraper := scraper start; clock := 0;
     visit_log := [] |}.

Definition query_after_two : crawl_state :=
  crawl_body online_from_query root_with_query
    (crawl_body online_from_query root_with_query query_start).

End Shop.

(** ** Vocabulary of the statements *)

(** The character just before the rest, once [m] has been read after [prev]. *)
Fixpoint last_of (prev : option ascii) (m : string) : option ascii :=
  match m with
  | EmptyString => prev
  | String a m' => last_of (Some a) m'
  end.

(** [str] and [m] agree character by character, as [Re.chr_eq] compares. *)
Fixpoint str_eq (ic : bool) (str m : string) : bool :=
  match str, m with
  | EmptyString, EmptyString => true
  | String c str', String a m' => Re.chr_eq ic c a && str_eq ic str' m'
  | _, _ => false
  end.

Fixpoint lower_string (s : string) : string :=
  match s with
  | EmptyString => EmptyString
  | String a s' => String (PyStr.lower a) (lower_string s')
  end.

Fixpoint all_word (s : string) : bool :=
  match s with
  | EmptyString => true
  | String a s' => PyStr.is_word a && all_word s'
  end.

(** [s.endswith(suffix)]. *)
Fixpoint ends_with (suffix s : string) : bool :=
  String.eqb suffix s ||
  match s with
  | String _ s' => ends_with suffix s'
  | EmptyString => false
  end.

(** The reading of the classifier as a test on the end of the URL: it ends,
    whatever the case, in a dot and one of the extensions. *)
Definition ends_in_media_ext (url : string) : bool :=
  existsb (fun ext => ends_with ("." +:+ ext) (lower_string url)) media_exts.

(** What the pattern looks for, anywhere in the URL: a word character, a dot,
    one of the extensions in any case, and then the end of the URL or a
    character that is not a word character. *)
Definition media_match (url : string) : Prop :=
  exists (pre : string) (c : ascii) (m post : string),
    url = pre +:+ String c (String "." (m +:+ post)) /\
    PyStr.is_word c = true /\
    In (lower_string m) media_exts /\
    Re.word_after post = false.

(** What [_flatten_dict] appends to [items] for the element [item] at index
    [i] of a list that is not all [str], [int] or [float]. *)
Definition element_items (new_key sep : string) (i : nat) (item : json)
    : list (string * json) :=
  match item with
  | JDict _ => flatten_dict item (new_key +:+ sep +:+ PyStr.of_nat i) sep
  | _ => []
  end.

(** The [enumerate(v)] loop from index [i] on. *)
Fixpoint list_items (new_key sep : string) (i : nat) (l : list json)
    : list (string * json) :=
  match l with
  | [] => []
  | item :: l' => element_items new_key sep i item ++ list_items new_key sep (S i) l'
  end.

(** What one turn of the loop over [d.items()] appends to [items]. *)
Definition entry_items (parent_key sep : string) (kv : string * json)
    : list (string * json) :=
  let new_key := new_key_of parent_key sep kv.1 in
  match kv.2 with
  | JDict _ => flatten_dict kv.2 new_key sep
  | JList l =>
      if forallb is_str_int_float l
      then [(new_key, JStr (PyStr.join ", " (map py_str l)))]
      else list_items new_key sep 0 l
  | v => [(new_key, v)]
  end.

(** The record [scrape_product] returns for each URL in turn, were the loop
    never to break: the request for the i-th URL is the i-th from [now]. *)
Fixpoint attempts (w : World) (now : nat) (urls : list string)
    : list (pydict json) :=
  match urls with
  | [] => []
  | url :: rest => scrape_product w now url :: attempts w (S now) rest
  end.

(** [bool(product_data)]. *)
Definition nonempty (product_data : pydict json) : bool :=
  match product_data with
  | [] => false
  | _ :: _ => true
  end.

(** [scrape_product] got its page and its record. *)
Definition scrape_succeeds (w : World) (now : nat) (url : string) : Prop :=
  exists soup product_data,
    http_get w now url = Return soup /\
    extract_schema_data (json_loads w) soup = Return product_data.

(** What one page adds to the queue. *)
Definition fresh_links (self : Scraper) (appended : list string) : Prop :=
  NoDup appended /\
  forall link, link ∈ appended ->
    (link ∉ visited_urls self) /\ can_fetch self link = true /\
    exists u, link = clean_url u.

(** The visited set is the log, without repeats, and within the budget. *)
Definition visits_ok (max_pages : Z) (st : crawl_state) : Prop :=
  (Z.of_nat (size (visited_urls (scraper st))) <= max_pages)%Z /\
  NoDup (visit_log st) /\
  visited_urls (scraper st) = list_to_set (visit_log st).

(** A URL of the queue is the root as given, or has neither [#] nor [?]. *)
Definition queue_ok (root_url : string) (st : crawl_state) : Prop :=
  forall url, url ∈ queue st ->
    url = root_url \/
    (PyStr.contains "#" url = false /\ PyStr.contains "?" url = false).

(** [sub in s]. *)
Definition has_substring (sub s : string) : Prop :=
  exists pre post, s = pre +:+ sub +:+ post.

(** A link of the page [soup] that [get_all_links] keeps: the cleaned join
    of some [href] with the root, on the root's netloc and not a media
    file. *)
Definition kept_link (w : World) (hrefs : list string) (root_url x : string) : Prop :=
  exists href url,
    href ∈ hrefs /\
    urljoin w root_url href = Return url /\
    is_same_domain w url root_url = Return true /\
    x = clean_url url /\
    is_media_file x = false.

(** The scraper after a successful request for [current_url]. *)
Definition mark_visited (self : Scraper) (current_url : string) : Scraper :=
  {| visited_urls := {[ current_url ]} ∪ visited_urls self;
     product_urls :=
       if is_product_url current_url
       then {[ current_url ]} ∪ product_urls self
       else product_urls self;
     robot_parser := robot_parser self |}.

(** What a turn of the loop does with the head [current_url] of the queue:
    it drops it without a request, or its request fails, or its body does
    not parse, or its page is taken in. *)
Inductive crawl_turn (w : World) (root_url : string) (st st' : crawl_state)
    (current_url : string) (rest : list string) : Prop :=
| turn_skip :
    current_url ∈ visited_urls (scraper st) \/
      can_fetch (scraper st) current_url = false ->
    st' = {| queue := rest; scraper := scraper st; clock := clock st;
             visit_log := visit_log st |} ->
    crawl_turn w root_url st st' current_url rest
| turn_fail (e : exn) :
    current_url ∉ visited_urls (scraper st) ->
    can_fetch (scraper st) current_url = true ->
    http_get w (clock st) current_url = Raise e ->
    e <> ParserRejectedMarkup ->
    st' = {| queue := rest; scraper := scraper st; clock := S (clock st);
             visit_log := visit_log st |} ->
    crawl_turn w root_url st st' current_url rest
| turn_unparsed :
    current_url ∉ visited_urls (scraper st) ->
    can_fetch (scraper st) current_url = true ->
    http_get w (clock st) current_url = Raise ParserRejectedMarkup ->
    st' = {| queue := rest;
             scraper := mark_visited (scraper st) current_url;
             clock := S (clock st);
             visit_log := visit_log st ++ [current_url] |} ->
    crawl_turn w root_url st st' current_url rest
| turn_page (soup : Soup) (appended : list string) :
    current_url ∉ visited_urls (scraper st) ->
    can_fetch (scraper st) current_url = true ->
    http_get w (clock st) current_url = Return soup ->
    (forall link, link ∈ appended ->
       kept_link w (a_hrefs soup) root_url link /\
       can_fetch (scraper st) link = true) ->
    st' = {| queue := rest ++ appended;
             scraper := mark_visited (scraper st) current_url;
             clock := S (clock st);
             visit_log := visit_log st ++ [current_url] |} ->
    crawl_turn w root_url st st' current_url rest.

(** A URL the crawl can come to hold: the root as given, or a link that
    the gate allows, without fragment and query and not a media file. *)
Definition crawlable (self : Scraper) (root_url url : string) : Prop :=
  url = root_url \/
  (can_fetch self url = true /\
   PyStr.contains "#" url = false /\ PyStr.contains "?" url = false /\
   is_media_file url = false).

(** The sets of the scraper during a crawl. *)
Definition sets_ok (root_url : string) (st : crawl_state) : Prop :=
  (forall url, url ∈ queue st -> crawlable (scraper st) root_url url) /\
  (forall url, url ∈ visited_urls (scraper st) ->
     can_fetch (scraper st) url = true /\ crawlable (scraper st) root_url url) /\
  (forall url, url ∈ product_urls (scraper st) <->
     url ∈ visited_urls (scraper st) /\ is_product_url url = true).

(** A value that is neither an object nor a list. *)
Definition is_leaf (v : json) : bool :=
  match v with
  | JDict _ | JList _ => false
  | _ => true
  end.

(** [s.startswith(pre)]. *)
Definition starts_with (pre s : string) : Prop :=
  exists rest, s = pre +:+ rest.

(** The keys of a dict, in order. *)
Definition dict_keys {V : Type} (d : pydict V) : list string := map fst d.

(** The last value among [items] for the key [k]. *)
Definition last_value {V : Type} (k : string) (items : list (string * V))
    : option V :=
  dict_get k (rev items).

(** The field [key] as the tables of [_extract_fallback_data] give it: the
    first meta tag with content if the field has meta names, else the first
    selector that finds an element if the field has selectors. *)
Definition fallback_field (soup : Soup) (key : string) : option json :=
  match dict_get key meta_tags ≫= first_meta soup with
  | Some content => Some (JStr content)
  | None =>
      match dict_get key selectors ≫= first_selected soup with
      | Some text => Some (JStr text)
      | None => None
      end
  end.

(** No character of [s] is white space. *)
Fixpoint no_space (s : string) : bool :=
  match s with
  | EmptyString => true
  | String a s' => negb (PyStr.is_space a) && no_space s'
  end.

(** A word as [s.split()] returns them: not empty, no white space. *)
Definition is_word_piece (piece : string) : Prop :=
  piece <> EmptyString /\ no_space piece = true.

(** What the loop of [scrape_all_products] does to one value. *)
Definition clean_value (value : json) : json :=
  match value with
  | JStr s => JStr (collapse_spaces s)
  | _ => value
  end.

(** A record of the output: it has a [url] field, the URL of a product page
    of the crawl, white space collapsed like every string. *)
Definition product_record (products : gset string) (record : pydict json) : Prop :=
  exists url, url ∈ products /\
              dict_get "url" record = Some (JStr (collapse_spaces url)).

(** Every character of [s] is an ASCII character. *)
Fixpoint is_ascii (s : string) : bool :=
  match s with
  | EmptyString => true
  | String a s' => Nat.ltb (nat_of_ascii a) 128 && is_ascii s'
  end.

(** What a script tag makes the loop of [extract_schema_data] raise, if
    anything: [TypeError] for a tag without a string, and what [json.loads]
    raises on its string other than [json.JSONDecodeError]. *)
Definition tag_raises (json_loads : string -> loads_result)
    (script_string : option string) : option exn :=
  match script_string with
  | None => Some TypeError
  | Some text =>
      match json_loads text with
      | LoadsRaises e => Some e
      | _ => None
      end
  end.

(** * Properties *)

(** ** Splitting and cleaning URLs *)

Lemma append_cons (a : ascii) (s r : string) :
  String a s +:+ r = String a (s +:+ r).
Proof. reflexivity. Qed.

Lemma append_nil_l (r : string) : EmptyString +:+ r = r.
Proof. reflexivity. Qed.

Lemma append_assoc (a b c : string) : (a +:+ b) +:+ c = a +:+ (b +:+ c).
Proof.
  induction a as [|x a IH]; [reflexivity|].
  rewrite !append_cons. now rewrite IH.
Qed.

Lemma split_nonempty (sep : ascii) (s : string) : PyStr.split sep s <> [].
Proof.
  destruct s as [|c s]; simpl; [discriminate|].
  destruct (Ascii.eqb c sep); [discriminate|].
  destruct (PyStr.split sep s); discriminate.
Qed.

(** The first piece, read off the string directly. *)
Lemma first_split_cons (sep c : ascii) (s : string) :
  PyStr.first (PyStr.split sep (String c s)) =
  if Ascii.eqb c sep then EmptyString
  else String c (PyStr.first (PyStr.split sep s)).
Proof.
  simpl. destruct (Ascii.eqb c sep); [reflexivity|].
  pose proof (split_nonempty sep s) as Hne.
  destruct (PyStr.split sep s); [contradiction|reflexivity].
Qed.

Lemma first_split_no_sep (sep : ascii) (s : string) :
  PyStr.contains sep (PyStr.first (PyStr.split sep s)) = false.
Proof.
  induction s as [|c s IH]; [reflexivity|].
  rewrite first_split_cons.
  destruct (Ascii.eqb c sep) eqn:E; [reflexivity|].
  simpl. rewrite E. exact IH.
Qed.

(** Cutting at [sep] keeps out a character that was not there. *)
Lemma first_split_keeps_out (sep c : ascii) (s : string) :
  PyStr.contains c s = false ->
  PyStr.contains c (PyStr.first (PyStr.split sep s)) = false.
Proof.
  induction s as [|a s IH]; [reflexivity|].
  intros H. cbn [PyStr.contains] in H. apply orb_false_iff in H as [Ha Hs].
  rewrite first_split_cons.
  destruct (Ascii.eqb a sep); [reflexivity|].
  simpl. rewrite Ha. auto.
Qed.

Lemma first_split_id (sep : ascii) (s : string) :
  PyStr.contains sep s = false -> PyStr.first (PyStr.split sep s) = s.
Proof.
  induction s as [|a s IH]; [reflexivity|].
  intros H. cbn [PyStr.contains] in H. apply orb_false_iff in H as [Ha Hs].
  rewrite first_split_cons, Ha, IH; auto.
Qed.

(** What is cut off starts at the separator. *)
Lemma first_split_rest (sep : ascii) (s : string) :
  exists rest, s = PyStr.first (PyStr.split sep s) +:+ rest /\
               (rest = EmptyString \/ exists rest', rest = String sep rest').
Proof.
  induction s as [|a s (rest & Hs & Hrest)].
  - exists EmptyString. split; [reflexivity|left; reflexivity].
  - rewrite first_split_cons. destruct (Ascii.eqb a sep) eqn:E.
    + apply Ascii.eqb_eq in E as ->. exists (String sep s).
      split; [reflexivity|right; eauto].
    + exists rest. split; [|exact Hrest]. rewrite append_cons. f_equal. exact Hs.
Qed.

Lemma clean_url_no_fragment (url : string) :
  PyStr.contains "#" (clean_url url) = false.
Proof.
  unfold clean_url. apply first_split_keeps_out, first_split_no_sep.
Qed.

Lemma clean_url_no_query (url : string) :
  PyStr.contains "?" (clean_url url) = false.
Proof. unfold clean_url. apply first_split_no_sep. Qed.

Lemma clean_url_fixed (url : string) :
  PyStr.contains "#" url = false -> PyStr.contains "?" url = false ->
  clean_url url = url.
Proof.
  intros H1 H2. unfold clean_url. rewrite (first_split_id "#" url H1).
  apply first_split_id, H2.
Qed.

(** C8: [clean_url], the normalisation of [get_all_links], returns the URL up
    to its first [#] or [?]: the result holds neither character, what was cut
    off starts with one of them, and cleaning a cleaned URL changes nothing. *)
Theorem clean_url_strips_and_is_idempotent (url : string) :
  PyStr.contains "#" (clean_url url) = false /\
  PyStr.contains "?" (clean_url url) = false /\
  (exists rest, url = clean_url url +:+ rest /\
     (rest = EmptyString \/
      exists rest', rest = String "#" rest' \/ rest = String "?" rest')) /\
  clean_url (clean_url url) = clean_url url.
Proof.
  split; [apply clean_url_no_fragment|].
  split; [apply clean_url_no_query|].
  split.
  - unfold clean_url.
    destruct (first_split_rest "#" url) as (r1 & H1 & Hr1).
    destruct (first_split_rest "?" (PyStr.first (PyStr.split "#" url)))
      as (r2 & H2 & Hr2).
    exists (r2 +:+ r1). split.
    + rewrite <- append_assoc, <- H2. exact H1.
    + destruct Hr2 as [->|(r2' & ->)].
      * destruct Hr1 as [->|(r1' & ->)]; [left; reflexivity|].
        right. exists r1'. left. reflexivity.
      * right. exists (r2' +:+ r1). right. reflexivity.
  - apply clean_url_fixed; [apply clean_url_no_fragment|apply clean_url_no_query].
Qed.

Example clean_url_both :
  clean_url "https://shop.example/a?x=1#top" = "https://shop.example/a".
Proof. reflexivity. Qed.

Example clean_url_fragment_first :
  clean_url "https://shop.example/a#top?x=1" = "https://shop.example/a".
Proof. reflexivity. Qed.

(** ** The acceptor, in terms of strings *)

Lemma lower_idem (a : ascii) : PyStr.lower (PyStr.lower a) = PyStr.lower a.
Proof. destruct a as [[] [] [] [] [] [] [] []]; reflexivity. Qed.

Lemma is_word_lower (a : ascii) : PyStr.is_word (PyStr.lower a) = PyStr.is_word a.
Proof. destruct a as [[] [] [] [] [] [] [] []]; reflexivity. Qed.

Lemma lower_dot (a : ascii) : PyStr.lower a = "."%char -> a = "."%char.
Proof.
  destruct a as [[] [] [] [] [] [] [] []]; intros H; vm_compute in H;
    first [reflexivity | discriminate H].
Qed.

Lemma chr_eq_lower (c a : ascii) :
  Re.chr_eq true c a = true <-> PyStr.lower c = PyStr.lower a.
Proof. unfold Re.chr_eq. apply Ascii.eqb_eq. Qed.

Lemma chr_eq_word (c a : ascii) :
  Re.chr_eq true c a = true -> PyStr.is_word c = true -> PyStr.is_word a = true.
Proof.
  intros H Hc. apply chr_eq_lower in H.
  rewrite <- is_word_lower, <- H, is_word_lower. exact Hc.
Qed.

Lemma str_eq_lower (e m : string) :
  str_eq true e m = true <-> lower_string e = lower_string m.
Proof.
  revert m. induction e as [|c e IH]; intros [|a m]; cbn [str_eq lower_string];
    try (split; [discriminate|discriminate]); [tauto|].
  rewrite andb_true_iff, chr_eq_lower, IH. split.
  - intros [-> ->]. reflexivity.
  - intros H. injection H as H1 H2. auto.
Qed.

Lemma lower_string_idem (m : string) :
  lower_string (lower_string m) = lower_string m.
Proof. induction m as [|a m IH]; simpl; [reflexivity|]. now rewrite lower_idem, IH. Qed.

Lemma last_of_append (prev : option ascii) (m : string) (c : ascii) :
  last_of prev (m +:+ String c EmptyString) = Some c.
Proof.
  revert prev. induction m as [|a m IH]; intros prev; [reflexivity|].
  rewrite append_cons. simpl. apply IH.
Qed.

Lemma last_of_None (pre : string) (c : ascii) :
  last_of None pre = Some c -> exists pre', pre = pre' +:+ String c EmptyString.
Proof.
  enough (G : forall prev, last_of prev pre = Some c ->
                prev = Some c /\ pre = EmptyString \/
                exists pre', pre = pre' +:+ String c EmptyString).
  { intros H. destruct (G None H) as [[? _]|?]; [discriminate|assumption]. }
  induction pre as [|a pre IH]; intros prev H; simpl in H; [left; auto|].
  right. destruct (IH _ H) as [[Ha ->]|(pre' & ->)].
  - injection Ha as ->. exists EmptyString. reflexivity.
  - exists (String a pre'). reflexivity.
Qed.

(** After a run of word characters the previous character is one. *)
Lemma last_of_word (e m : string) (prev : option ascii) :
  str_eq true e m = true -> all_word e = true -> e <> EmptyString ->
  Re.word_before (last_of prev m) = true.
Proof.
  revert m prev. induction e as [|c e IH]; intros [|a m] prev He Hw Hne;
    cbn [str_eq all_word last_of] in *; try discriminate; try contradiction.
  apply andb_true_iff in He as [Hc He]. apply andb_true_iff in Hw as [Hwc Hw].
  destruct e as [|c' e].
  - destruct m; [|discriminate]. cbn [last_of Re.word_before].
    eapply chr_eq_word; eauto.
  - eapply IH; eauto; discriminate.
Qed.

Lemma accept_lit (ic : bool) (str : string) (prev : option ascii) (s : string)
    (k : option ascii -> string -> bool) :
  Re.accept ic (Re.lit str) prev s k = true <->
  exists m rest, s = m +:+ rest /\ str_eq ic str m = true /\
                 k (last_of prev m) rest = true.
Proof.
  revert prev s. induction str as [|c str IH]; intros prev s; simpl.
  - split.
    + intros H. exists EmptyString, s. auto.
    + intros ([|a m] & rest & -> & He & Hk); [exact Hk|discriminate].
  - destruct s as [|a s].
    + split; [discriminate|].
      intros ([|a m] & rest & Hs & He & _); discriminate.
    + rewrite andb_true_iff, IH. split.
      * intros (Hc & m & rest & -> & He & Hk). exists (String a m), rest.
        simpl. rewrite Hc, He. auto.
      * intros ([|a' m] & rest & Hs & He & Hk); [discriminate|].
        rewrite append_cons in Hs. injection Hs as <- ->.
        simpl in He, Hk. apply andb_true_iff in He as [Hc He]. eauto 6.
Qed.

Lemma scan_spec (ic : bool) (r : Re.regex) (prev : option ascii) (s : string) :
  Re.scan ic r prev s = true <->
  exists pre rest, s = pre +:+ rest /\
                   Re.accept ic r (last_of prev pre) rest (fun _ _ => true) = true.
Proof.
  revert prev. induction s as [|a s IH]; intros prev; simpl.
  - rewrite orb_false_r. split.
    + intros H. exists EmptyString, EmptyString. auto.
    + intros ([|? ?] & rest & Hs & H); [|discriminate].
      rewrite append_nil_l in Hs. subst rest. exact H.
  - rewrite orb_true_iff, IH. split.
    + intros [H|(pre & rest & -> & H)].
      * exists EmptyString, (String a s). auto.
      * exists (String a pre), rest. auto.
    + intros ([|a' pre] & rest & Hs & H).
      * rewrite append_nil_l in Hs. subst rest. left. exact H.
      * rewrite append_cons in Hs. injection Hs as <- ->. right. eauto.
Qed.

(** ** The media pattern *)

Lemma accept_ext_alt (ic : bool) (prev : option ascii) (s : string)
    (k : option ascii -> string -> bool) :
  Re.accept ic ext_alt prev s k =
  existsb (fun ext => Re.accept ic (Re.lit ext) prev s k) media_exts.
Proof.
  unfold ext_alt, media_exts. cbn [existsb Re.accept].
  rewrite orb_false_r. reflexivity.
Qed.

Lemma media_exts_lower (ext : string) :
  In ext media_exts ->
  lower_string ext = ext /\ all_word ext = true /\ ext <> EmptyString.
Proof.
  unfold media_exts. cbn [In]. intros H.
  repeat (destruct H as [<-|H]; [repeat split; discriminate|]).
  contradiction.
Qed.

(** What must follow the extension: [(\b|(?=\?))] after a word character. *)
Lemma accept_media_tail (prev : option ascii) (s : string) :
  Re.word_before prev = true ->
  Re.accept true media_tail prev s (fun _ _ => true) = negb (Re.word_after s).
Proof.
  intros Hp. unfold media_tail. cbn [Re.accept]. unfold Re.at_boundary. rewrite Hp, !andb_true_r.
  destruct s as [|a s]; [reflexivity|].
  cbn [Re.word_after xorb]. destruct (PyStr.is_word a) eqn:Ha; [|reflexivity].
  cbn [negb orb]. apply not_true_is_false. intros H.
  rewrite ?andb_true_r in H. apply chr_eq_lower in H. symmetry in H.
  assert (Hq : PyStr.is_word (PyStr.lower a) = false) by (rewrite H; reflexivity).
  rewrite is_word_lower, Ha in Hq. discriminate.
Qed.

Lemma is_media_file_match (url : string) :
  is_media_file url = true <-> media_match url.
Proof.
  unfold is_media_file, Re.search, media_match. rewrite scan_spec. split.
  - intros (pre & rest & -> & H).
    unfold media_pattern in H. cbn [Re.accept] in H.
    apply andb_true_iff in H as [Hb H].
    destruct rest as [|a s1]; [discriminate|].
    apply andb_true_iff in H as [Hdot H].
    apply chr_eq_lower in Hdot. symmetry in Hdot. apply lower_dot in Hdot as ->.
    rewrite accept_ext_alt in H. apply existsb_exists in H as (ext & Hin & H).
    apply accept_lit in H as (m & post & -> & He & Hk).
    destruct (media_exts_lower ext Hin) as (Hlow & Hw & Hne).
    cbv beta in Hk. rewrite accept_media_tail in Hk by (eapply last_of_word; eauto).
    apply negb_true_iff in Hk.
    unfold Re.at_boundary in Hb. cbn [Re.word_after] in Hb.
    change (PyStr.is_word ".") with false in Hb. rewrite xorb_false_r in Hb.
    destruct (last_of None pre) as [c|] eqn:Hlast; [|discriminate].
    apply last_of_None in Hlast as (pre' & ->).
    exists pre', c, m, post. repeat split; auto.
    + rewrite append_assoc. reflexivity.
    + apply str_eq_lower in He. rewrite <- He, Hlow. exact Hin.
  - intros (pre & c & m & post & -> & Hc & Hin & Hpost).
    exists (pre +:+ String c EmptyString), (String "." (m +:+ post)). split.
    + rewrite append_assoc. reflexivity.
    + rewrite last_of_append. unfold media_pattern. cbn [Re.accept].
      unfold Re.at_boundary. cbn [Re.word_before Re.word_after]. rewrite Hc.
      change (Re.chr_eq true "." ".") with true.
      change (PyStr.is_word ".") with false. cbn [xorb andb].
      rewrite accept_ext_alt. apply existsb_exists.
      exists (lower_string m). split; [exact Hin|].
      destruct (media_exts_lower _ Hin) as (Hlow & Hw & Hne).
      assert (He : str_eq true (lower_string m) m = true).
      { apply str_eq_lower, lower_string_idem. }
      apply accept_lit. exists m, post. split; [reflexivity|]. split; [exact He|].
      rewrite accept_media_tail by (eapply last_of_word; eauto).
      rewrite Hpost. reflexivity.
Qed.

(** C6 (amended): on a URL of ASCII characters the classifier is true
    exactly when the URL holds, at any place, a word character, a dot, one
    of the seven extensions in any case, and then its end or a character
    that is not a word character.  So [.../photo.JPG] is a media file and
    [.../products/jpg-strap] is not. *)
Theorem is_media_file_iff_pattern_found :
  (forall url : string,
     is_ascii url = true -> (is_media_file url = true <-> media_match url)) /\
  is_media_file "https://shop.example/img/photo.JPG" = true /\
  is_media_file "https://shop.example/products/jpg-strap" = false.
Proof.
  split; [intros url _; apply is_media_file_match|]. split; reflexivity.
Qed.

Lemma is_media_file_iff_pattern_found_witness :
  is_ascii "https://shop.example/img/photo.JPG" = true /\
  (is_media_file "https://shop.example/img/photo.JPG" = true <->
   media_match "https://shop.example/img/photo.JPG").
Proof.
  assert (H : is_ascii "https://shop.example/img/photo.JPG" = true) by reflexivity.
  split; [exact H|].
  exact (proj1 is_media_file_iff_pattern_found "https://shop.example/img/photo.JPG" H).
Defined.

(** C6, as stated, fails in both directions: an extension in the middle of
    the path is taken for a media file, and a path that ends in [/.jpg]
    is not. *)
Lemma is_media_file_not_suffix_test :
  (is_media_file "https://shop.example/photo.jpg/info" = true /\
   ends_in_media_ext "https://shop.example/photo.jpg/info" = false) /\
  (is_media_file "https://shop.example/.jpg" = false /\
   ends_in_media_ext "https://shop.example/.jpg" = true).
Proof. repeat split; reflexivity. Qed.

Example ends_in_media_ext_photo :
  ends_in_media_ext "https://shop.example/img/photo.JPG" = true.
Proof. reflexivity. Qed.

Example ends_in_media_ext_strap :
  ends_in_media_ext "https://shop.example/products/jpg-strap" = false.
Proof. reflexivity. Qed.

(** ** Flattening *)

Lemma dict_update_app {V : Type} (d : pydict V) (a b : list (string * V)) :
  dict_update d (a ++ b) = dict_update (dict_update d a) b.
Proof. unfold dict_update. apply fold_left_app. Qed.

Lemma dict_of_items_app {V : Type} (a b : list (string * V)) :
  dict_of_items (a ++ b) = dict_update (dict_of_items a) b.
Proof. unfold dict_of_items. apply dict_update_app. Qed.

(** The list [items] that [_flatten_dict] hands to [dict]. *)
Lemma flatten_dict_items (entries : list (string * json)) (parent_key sep : string) :
  flatten_dict (JDict entries) parent_key sep =
  dict_of_items (flat_map (entry_items parent_key sep) entries).
Proof.
  cbn [flatten_dict]. f_equal.
  induction entries as [|[k v] rest IH]; [reflexivity|].
  cbn [flat_map]. rewrite <- IH. f_equal.
  unfold entry_items. cbn [fst snd].
  destruct v as [| | | | |l|]; try reflexivity.
  destruct (forallb is_str_int_float l); [reflexivity|].
  generalize 0%nat. induction l as [|item l IHl]; intros i; [reflexivity|].
  cbn [list_items]. rewrite <- IHl. reflexivity.
Qed.

Lemma flatten_dict_snoc (entries : list (string * json)) (kv : string * json)
    (parent_key sep : string) :
  flatten_dict (JDict (entries ++ [kv])) parent_key sep =
  dict_update (flatten_dict (JDict entries) parent_key sep)
    (entry_items parent_key sep kv).
Proof.
  rewrite !flatten_dict_items, flat_map_app, dict_of_items_app.
  cbn [flat_map]. rewrite app_nil_r. reflexivity.
Qed.

Lemma list_items_imap (new_key sep : string) (i : nat) (l : list json) :
  list_items new_key sep i l =
  concat (imap (fun j item => element_items new_key sep (i + j) item) l).
Proof.
  revert i. induction l as [|item l IH]; intros i; [reflexivity|].
  cbn [list_items imap concat]. rewrite Nat.add_0_r, IH. do 2 f_equal.
  apply imap_ext. intros j x _. cbn. f_equal. lia.
Qed.

Example flatten_product :
  flatten_dict Shop.product_data "" "_" =
  [("@type", JStr "Product"); ("name", JStr "Bow"); ("offers_price", JStr "199.99")].
Proof. reflexivity. Qed.

Example flatten_lists :
  flatten_dict
    (JDict [("a", JList [JInt 1; JBool true; JStr "x"]);
            ("b", JList [JStr "u"; JDict [("c", JNull)]]);
            ("a_b", JInt (-3))]) "p" "_" =
  [("p_a", JStr "1, True, x"); ("p_b_1_c", JNull); ("p_a_b", JInt (-3))].
Proof. reflexivity. Qed.

(** ** Extraction *)

(** A block that is not JSON is passed over. *)
Lemma scan_scripts_skips_bad (json_loads : string -> loads_result) (text : string)
    (rest : list (option string)) (schema_data : pydict json) :
  json_loads text = DecodeError ->
  scan_scripts json_loads (Some text :: rest) schema_data =
  scan_scripts json_loads rest schema_data.
Proof. intros H. cbn [scan_scripts]. rewrite H. reflexivity. Qed.

(** When no script tag raises, the loop runs to its end. *)
Lemma scan_scripts_returns (json_loads : string -> loads_result)
    (json_ld : list (option string)) (schema_data : pydict json) :
  Forall (fun tag => tag_raises json_loads tag = None) json_ld ->
  exists d, scan_scripts json_loads json_ld schema_data = Return d.
Proof.
  intros H. revert schema_data.
  induction H as [|[text|] rest Hx _ IH]; intros schema_data; cbn [scan_scripts].
  - eauto.
  - cbn [tag_raises] in Hx. destruct (json_loads text); [apply IH|apply IH|discriminate].
  - discriminate.
Qed.

(** The first script tag that raises stops the loop with its exception. *)
Lemma scan_scripts_raises (json_loads : string -> loads_result)
    (pre : list (option string)) (tag : option string)
    (rest : list (option string)) (e : exn) (schema_data : pydict json) :
  Forall (fun tag => tag_raises json_loads tag = None) pre ->
  tag_raises json_loads tag = Some e ->
  scan_scripts json_loads (pre ++ tag :: rest) schema_data = Raise e.
Proof.
  intros Hpre Htag. revert schema_data.
  induction Hpre as [|[text|] pre Hx _ IH]; intros schema_data;
    cbn [app scan_scripts].
  - destruct tag as [text|]; cbn [tag_raises] in Htag.
    + destruct (json_loads text); try discriminate. injection Htag as ->. reflexivity.
    + injection Htag as <-. reflexivity.
  - cbn [tag_raises] in Hx. destruct (json_loads text); [apply IH|apply IH|discriminate].
  - discriminate.
Qed.

(** The script tags either all pass, or split at the first that raises. *)
Lemma tags_split (json_loads : string -> loads_result) (json_ld : list (option string)) :
  Forall (fun tag => tag_raises json_loads tag = None) json_ld \/
  exists pre tag rest e,
    json_ld = pre ++ tag :: rest /\
    Forall (fun tag => tag_raises json_loads tag = None) pre /\
    tag_raises json_loads tag = Some e.
Proof.
  induction json_ld as [|tag rest IH]; [left; constructor|].
  destruct (tag_raises json_loads tag) as [e|] eqn:Ht.
  - right. exists [], tag, rest, e. split; [reflexivity|]. split; [constructor|exact Ht].
  - destruct IH as [IH|(pre & tag' & rest' & e & -> & Hpre & Ht')].
    + left. constructor; assumption.
    + right. exists (tag :: pre), tag', rest', e.
      split; [reflexivity|]. split; [constructor; assumption|exact Ht'].
Qed.

Lemma extract_schema_data_returns (json_loads : string -> loads_result) (soup : Soup) :
  Forall (fun tag => tag_raises json_loads tag = None) (ld_json_scripts soup) ->
  exists d, extract_schema_data json_loads soup = Return d.
Proof.
  intros H. unfold extract_schema_data.
  destruct (scan_scripts_returns json_loads _ [] H) as (d & ->).
  cbn [mbind outcome_bind]. destruct d; eauto.
Qed.

Lemma extract_schema_data_raises (json_loads : string -> loads_result) (soup : Soup)
    (pre : list (option string)) (tag : option string)
    (rest : list (option string)) (e : exn) :
  ld_json_scripts soup = pre ++ tag :: rest ->
  Forall (fun tag => tag_raises json_loads tag = None) pre ->
  tag_raises json_loads tag = Some e ->
  extract_schema_data json_loads soup = Raise e.
Proof.
  intros Hs Hpre Htag. unfold extract_schema_data.
  rewrite Hs, (scan_scripts_raises json_loads _ _ _ e [] Hpre Htag). reflexivity.
Qed.

(** C2: [extract_schema_data] on a page whose JSON-LD tag is empty raises
    [TypeError], alone or before a good block, where the claim has the block
    passed over; a block that is not JSON is passed over. *)
Theorem extract_schema_data_empty_script_raises :
  extract_schema_data Shop.loads Shop.empty_script_page = Raise TypeError /\
  extract_schema_data Shop.loads Shop.empty_then_good_page = Raise TypeError /\
  extract_schema_data Shop.loads Shop.broken_then_good_page =
    Return [("@type", JStr "Product"); ("name", JStr "Bow");
            ("offers_price", JStr "199.99")].
Proof. repeat split; reflexivity. Qed.

(** ** One product *)

Lemma dict_set_nonempty {V : Type} (k : string) (v : V) (d : pydict V) :
  dict_set k v d <> [].
Proof.
  destruct d as [|[k' v'] d]; cbn [dict_set]; [discriminate|].
  destruct (String.eqb k' k); discriminate.
Qed.

Lemma dict_get_set {V : Type} (k : string) (v : V) (d : pydict V) :
  dict_get k (dict_set k v d) = Some v.
Proof.
  induction d as [|[k' v'] d IH]; cbn [dict_set dict_get].
  - rewrite String.eqb_refl. reflexivity.
  - destruct (String.eqb k' k) eqn:E; cbn [dict_get]; rewrite E; [reflexivity|exact IH].
Qed.

Lemma scrape_product_cases (w : World) (now : nat) (url : string) :
  (scrape_succeeds w now url /\
   exists product_data,
     scrape_product w now url = dict_set "url" (JStr url) product_data) \/
  (~ scrape_succeeds w now url /\ scrape_product w now url = []).
Proof.
  unfold scrape_succeeds, scrape_product.
  destruct (http_get w now url) as [soup|e].
  - destruct (extract_schema_data (json_loads w) soup) as [d|e] eqn:Hx.
    + left. split; [exists soup, d; split; [reflexivity|exact Hx]|exists d; reflexivity].
    + right. split; [|reflexivity].
      intros (soup' & d & H1 & H2). injection H1 as <-. rewrite H2 in Hx. discriminate.
  - right. split; [|reflexivity]. intros (soup' & d & H1 & _). discriminate.
Qed.

(** C10: when the request or the extraction raises, [scrape_product] returns
    the empty record; the record has a [url] field exactly when both went
    through, and then it is the URL asked for; the loop of
    [scrape_all_products] neither appends nor counts an empty record. *)
Theorem scrape_product_empty_on_exception (w : World) (now : nat) (url : string) :
  (forall e, http_get w now url = Raise e -> scrape_product w now url = []) /\
  (forall soup e,
     http_get w now url = Return soup ->
     extract_schema_data (json_loads w) soup = Raise e ->
     scrape_product w now url = []) /\
  (dict_has "url" (scrape_product w now url) = true <-> scrape_succeeds w now url) /\
  (scrape_succeeds w now url ->
   dict_get "url" (scrape_product w now url) = Some (JStr url)) /\
  (forall st : harvest_state,
     hclock st = now -> scrape_product w now url = [] ->
     all_products (harvest_body w url st) = all_products st /\
     count (harvest_body w url st) = count st).
Proof.
  split; [|split; [|split; [|split]]].
  - intros e H. unfold scrape_product. rewrite H. reflexivity.
  - intros soup e H1 H2. unfold scrape_product. rewrite H1, H2. reflexivity.
  - destruct (scrape_product_cases w now url) as [(Hs & d & ->)|(Hn & ->)].
    + unfold dict_has. rewrite dict_get_set. tauto.
    + split; [discriminate|contradiction].
  - intros Hs. destruct (scrape_product_cases w now url) as [(_ & d & ->)|(Hn & _)].
    + apply dict_get_set.
    + contradiction.
  - intros st <- H. unfold harvest_body. rewrite H. split; reflexivity.
Qed.

(** ** The harvest loop *)

(** Once the limit is reached, the loop does nothing more. *)
Lemma harvest_loop_full (w : World) (urls : list string) (st : harvest_state) :
  (limit <= count st)%Z -> harvest_loop w urls st = st.
Proof.
  intros H. destruct urls as [|url rest]; [reflexivity|].
  cbn [harvest_loop]. apply Z.leb_le in H. rewrite H. reflexivity.
Qed.

Lemma harvest_loop_app (w : World) (urls more : list string) (st : harvest_state) :
  harvest_loop w (urls ++ more) st = harvest_loop w more (harvest_loop w urls st).
Proof.
  revert st. induction urls as [|url rest IH]; intros st; [reflexivity|].
  cbn [harvest_loop app]. destruct (limit <=? count st)%Z eqn:E.
  - symmetry. apply harvest_loop_full, Z.leb_le, E.
  - apply IH.
Qed.

Lemma clean_record_nonempty (product_data : pydict json) :
  product_data <> [] -> clean_record product_data <> [].
Proof. destruct product_data as [|[k v] d]; [contradiction|]. discriminate. Qed.

(** The loop from any state whose counter agrees with its collection. *)
Lemma harvest_loop_spec (w : World) (urls : list string) (st : harvest_state) :
  count st = Z.of_nat (length (all_products st)) -> (count st <= limit)%Z ->
  let h := harvest_loop w urls st in
  all_products h =
    all_products st ++
    take (Z.to_nat (limit - count st))
      (map (clean_record) (List.filter nonempty (attempts w (hclock st) urls))) /\
  count h = Z.of_nat (length (all_products h)) /\
  (count h <= limit)%Z.
Proof.
  revert st. induction urls as [|url rest IH]; intros st Hc Hl; cbn zeta.
  - cbn [harvest_loop attempts List.filter map]. rewrite take_nil, app_nil_r. auto.
  - cbn [harvest_loop attempts List.filter].
    destruct (limit <=? count st)%Z eqn:E.
    + apply Z.leb_le in E. replace (limit - count st)%Z with 0%Z by lia.
      cbn [Z.to_nat take]. rewrite app_nil_r. auto.
    + apply Z.leb_gt in E. unfold harvest_body.
      destruct (scrape_product w (hclock st) url) as [|kv d] eqn:Hp; cbn [nonempty].
      * apply (IH {| all_products := all_products st; count := count st;
                     hclock := S (hclock st) |}); assumption.
      * set (record := clean_record (kv :: d)).
        set (st' := {| all_products := all_products st ++ [record];
                       count := (count st + 1)%Z; hclock := S (hclock st) |}).
        assert (Hc' : count st' = Z.of_nat (length (all_products st'))).
        { subst st'. cbn [count all_products]. rewrite length_app. cbn [length]. lia. }
        assert (Hl' : (count st' <= limit)%Z) by (subst st'; cbn [count]; lia).
        destruct (IH st' Hc' Hl') as (Ha & Hn & Hb). split; [|auto].
        rewrite Ha. subst st'. cbn [all_products count hclock map].
        replace (Z.to_nat (limit - count st)) with (S (Z.to_nat (limit - (count st + 1)))) by lia.
        cbn [take]. rewrite <- app_assoc. reflexivity.
Qed.

(** C9: the harvest loop collects the records of the first ten URLs whose
    scrape succeeds, in order, and counts exactly those: a URL whose scrape
    fails leaves the collection and the counter as they were and the loop goes
    on with the next URL; every collected record is non-empty; the counter
    never exceeds the limit of 10; and once the limit is reached no further
    URL is looked at. *)
Theorem harvest_counts_only_successes (w : World) (urls : list string) (now : nat) :
  let start := {| all_products := []; count := 0; hclock := now |} in
  let h := harvest_loop w urls start in
  limit = 10%Z /\
  all_products h =
    take 10 (map (clean_record) (List.filter nonempty (attempts w now urls))) /\
  count h = Z.of_nat (length (all_products h)) /\
  (count h <= limit)%Z /\
  Forall (fun record => record <> []) (all_products h) /\
  (forall url rest st,
     scrape_product w (hclock st) url = [] -> (count st < limit)%Z ->
     harvest_loop w (url :: rest) st =
     harvest_loop w rest {| all_products := all_products st; count := count st;
                            hclock := S (hclock st) |}) /\
  (forall more, count h = limit -> harvest_loop w (urls ++ more) start = h).
Proof.
  intros start h.
  destruct (harvest_loop_spec w urls start) as (Ha & Hn & Hb);
    [reflexivity|unfold limit; cbn; lia|].
  fold h in Ha, Hn, Hb. cbn [all_products count hclock app] in Ha.
  split; [reflexivity|]. split; [exact Ha|]. split; [exact Hn|]. split; [exact Hb|].
  split; [|split].
  - rewrite Ha. apply Forall_take, Forall_forall. intros record Hin.
    apply list_elem_of_In, in_map_iff in Hin as (d & <- & Hd).
    apply filter_In in Hd as [_ Hd].
    apply clean_record_nonempty. destruct d; [discriminate|discriminate].
  - intros url rest st Hp Hlt. cbn [harvest_loop].
    apply Z.leb_gt in Hlt. rewrite Hlt. unfold harvest_body. rewrite Hp. reflexivity.
  - intros more Hfull. rewrite harvest_loop_app. fold h.
    apply harvest_loop_full. lia.
Qed.

(** ** The permission gate *)

(** [read_robots_txt] always leaves a parser object in [self.robot_parser]:
    the [return True] of [can_fetch] is not taken afterwards. *)
Lemma read_robots_txt_sets_parser (w : World) (self self' : Scraper) (root_url : string) :
  read_robots_txt w self root_url = Return self' ->
  visited_urls self' = visited_urls self /\
  product_urls self' = product_urls self /\
  exists rp, robot_parser self' = Some rp.
Proof.
  unfold read_robots_txt. destruct (urlparse w root_url) as [[scheme netloc]|e];
    cbn; [|discriminate].
  intros H. injection H as <-. cbn. eauto.
Qed.

(** When fetching robots.txt raises, the parser is left as it was created,
    and such a parser allows nothing. *)
Lemma read_robots_txt_raise_denies (w : World) (self : Scraper)
    (root_url scheme netloc : string) (e : exn) :
  urlparse w root_url = Return (scheme, netloc) ->
  robots_txt w (scheme +:+ "://" +:+ netloc +:+ "/robots.txt") = RobotsRaises e ->
  exists self', read_robots_txt w self root_url = Return self' /\
                forall url, can_fetch self' url = false.
Proof.
  intros Hp Hr. unfold read_robots_txt. rewrite Hp.
  cbn [mbind outcome_bind fst snd]. rewrite Hr. cbn [rp_read].
  eexists. split; [reflexivity|]. intros url. unfold can_fetch.
  cbn [robot_parser].
  destruct (urlparse w (scheme +:+ "://" +:+ netloc +:+ "/robots.txt")); reflexivity.
Qed.

Example read_robots_txt_online :
  crawl_start Shop.online Scraper_new Shop.root 0 = Return Shop.start.
Proof. reflexivity. Qed.

(** C1: with robots.txt unreachable, [read_robots_txt] returns without an
    exception, but the gate then refuses every URL, where the claim (and the
    comment in [can_fetch]) has it allow every URL; the crawl visits
    nothing. *)
Theorem read_robots_txt_failure_denies_all :
  exists self,
    read_robots_txt Shop.offline Scraper_new Shop.root = Return self /\
    robot_parser self <> None /\
    (forall url, can_fetch self url = false) /\
    exists st, crawl_site Shop.offline Scraper_new Shop.root 1000 0 1 = Return (Some st) /\
               visit_log st = [] /\ queue st = [].
Proof.
  destruct (read_robots_txt_raise_denies Shop.offline Scraper_new Shop.root
              "https" "shop.example" URLError eq_refl eq_refl) as (self & Hr & Hc).
  exists self. split; [exact Hr|]. split.
  - destruct (read_robots_txt_sets_parser _ _ _ _ Hr) as (_ & _ & rp & ->). discriminate.
  - split; [exact Hc|]. eexists. split; [vm_compute; reflexivity|]. split; reflexivity.
Qed.

(** ** The crawl loop *)

(** A URL without [#] and [?]. *)
Lemma clean_url_canonical (u : string) :
  PyStr.contains "#" (clean_url u) = false /\ PyStr.contains "?" (clean_url u) = false.
Proof. split; [apply clean_url_no_fragment|apply clean_url_no_query]. Qed.

(** Every link [get_all_links] returns went through [clean_url]. *)
Lemma collect_links_clean (w : World) (hrefs : list string) (root_url : string)
    (links out : gset string) :
  collect_links w hrefs root_url links = Return out ->
  forall x, x ∈ out -> x ∈ links \/ exists u, x = clean_url u.
Proof.
  revert links. induction hrefs as [|href rest IH]; intros links H x Hx.
  - injection H as <-. left. exact Hx.
  - cbn [collect_links] in H.
    destruct (urljoin w root_url href) as [url|e]; [|discriminate].
    cbn [mbind outcome_bind] in H.
    destruct (is_same_domain w url root_url) as [[|]|e]; [| |discriminate];
      cbn [mbind outcome_bind] in H.
    + destruct (negb (is_media_file (clean_url url))).
      * destruct (IH _ H x Hx) as [Hin|?]; [|right; assumption].
        apply elem_of_union in Hin as [Hin|Hin]; [|left; exact Hin].
        apply elem_of_singleton in Hin as ->. right. eauto.
      * eapply IH; eauto.
    + eapply IH; eauto.
Qed.

Lemma get_all_links_clean (w : World) (soup : Soup) (root_url : string)
    (new_links : gset string) :
  get_all_links w soup root_url = Return new_links ->
  forall x, x ∈ new_links -> exists u, x = clean_url u.
Proof.
  intros H x Hx. destruct (collect_links_clean _ _ _ _ _ H x Hx) as [Hin|?];
    [|assumption].
  apply elem_of_empty in Hin. contradiction.
Qed.

Lemma appended_fresh (w : World) (self : Scraper) (soup : Soup) (root_url : string) :
  fresh_links self
    match get_all_links w soup root_url with
    | Return new_links => new_queue_entries w self new_links
    | Raise _ => []
    end.
Proof.
  destruct (get_all_links w soup root_url) as [new_links|e] eqn:Hl.
  - split.
    + apply NoDup_filter, iter_set_NoDup.
    + intros link Hin. apply list_elem_of_filter in Hin as [[Hv Hc] Hin].
      apply iter_set_elem in Hin. repeat split; auto.
      eapply get_all_links_clean; eauto.
  - split; [constructor|]. intros link Hin. apply elem_of_nil in Hin. contradiction.
Qed.

(** A turn of the loop either drops the head of the queue and leaves the
    scraper alone, or marks the head visited and appends fresh links. *)
Lemma crawl_step_cases (w : World) (root_url : string) (max_pages : Z)
    (st st' : crawl_state) :
  crawl_step w root_url max_pages st = Some st' ->
  exists current rest,
    queue st = current :: rest /\
    (Z.of_nat (size (visited_urls (scraper st))) < max_pages)%Z /\
    robot_parser (scraper st') = robot_parser (scraper st) /\
    ((scraper st' = scraper st /\ queue st' = rest /\
      visit_log st' = visit_log st) \/
     ((current ∉ visited_urls (scraper st)) /\
      can_fetch (scraper st) current = true /\
      visited_urls (scraper st') = {[ current ]} ∪ visited_urls (scraper st) /\
      visit_log st' = visit_log st ++ [current] /\
      exists appended,
        queue st' = rest ++ appended /\ fresh_links (scraper st') appended)).
Proof.
  unfold crawl_step, crawl_guard, crawl_body.
  destruct (queue st) as [|current rest]; [discriminate|].
  destruct (Z.of_nat (size (visited_urls (scraper st))) <? max_pages)%Z eqn:Hg;
    [|discriminate].
  apply Z.ltb_lt in Hg. intros H. injection H as <-.
  exists current, rest. split; [reflexivity|]. split; [exact Hg|].
  destruct (bool_decide (current ∈ visited_urls (scraper st))) eqn:Hv;
    cbn [orb].
  - split; [reflexivity|]. left. auto.
  - apply bool_decide_eq_false in Hv.
    destruct (can_fetch (scraper st) current) eqn:Hc; cbn [negb].
    + destruct (http_get w (clock st) current) as [soup|e].
      * split; [reflexivity|]. right. cbn [scraper queue visit_log visited_urls].
        repeat split; auto. eexists. split; [reflexivity|]. apply appended_fresh.
      * destruct e;
          first [ solve [split; [reflexivity|]; left; auto]
                | split; [reflexivity|]; right;
                  cbn [scraper queue visit_log visited_urls];
                  repeat split; auto; exists []; rewrite app_nil_r;
                  split; [reflexivity|]; split; [constructor|];
                  intros link Hin; apply elem_of_nil in Hin; contradiction ].
    + split; [reflexivity|]. left. auto.
Qed.

Lemma crawl_start_state (w : World) (self : Scraper) (root_url : string)
    (now : nat) (st : crawl_state) :
  crawl_start w self root_url now = Return st ->
  queue st = [root_url] /\ visited_urls (scraper st) = ∅ /\ visit_log st = [].
Proof.
  unfold crawl_start.
  destruct (read_robots_txt w _ root_url) as [self'|e] eqn:Hr; [|discriminate].
  cbn [mbind outcome_bind]. intros H. injection H as <-. cbn.
  apply read_robots_txt_sets_parser in Hr as (Hv & _). auto.
Qed.

(** The loop, run with fuel, only passes through states of [crawl_reach]. *)
Lemma crawl_loop_reach (w : World) (root_url : string) (max_pages : Z)
    (fuel : nat) (st st' : crawl_state) :
  crawl_loop w root_url max_pages fuel st = Some st' ->
  crawl_reach w root_url max_pages st st'.
Proof.
  revert st. induction fuel as [|fuel IH]; intros st; cbn [crawl_loop];
    destruct (crawl_step w root_url max_pages st) as [st1|] eqn:Hs; intros H;
    try discriminate; try (injection H as <-; apply rtc_refl).
  eapply rtc_l; [exact Hs|]. apply IH, H.
Qed.

Lemma visits_ok_step (w : World) (root_url : string) (max_pages : Z)
    (st st' : crawl_state) :
  crawl_step w root_url max_pages st = Some st' ->
  visits_ok max_pages st -> visits_ok max_pages st'.
Proof.
  intros Hs (Hsize & Hnd & Hlog).
  destruct (crawl_step_cases _ _ _ _ _ Hs)
    as (current & rest & Hq & Hlt & _ & [(Hsc & _ & Hl)|(Hnv & _ & Hv & Hl & _)]).
  - unfold visits_ok. rewrite Hsc, Hl. auto.
  - unfold visits_ok. rewrite Hv, Hl. split; [|split].
    + rewrite size_union, size_singleton; [lia|].
      apply disjoint_singleton_l, Hnv.
    + apply NoDup_app. split; [exact Hnd|]. split; [|apply NoDup_singleton].
      intros x Hx Hx'. apply list_elem_of_singleton in Hx' as ->.
      apply Hnv. rewrite Hlog. apply elem_of_list_to_set, Hx.
    + rewrite list_to_set_app_L, <- Hlog. cbn [list_to_set foldr].
      rewrite union_empty_r_L. apply (comm_L (∪)).
Qed.

Lemma visits_ok_reach (w : World) (root_url : string) (max_pages : Z)
    (st0 st : crawl_state) :
  crawl_reach w root_url max_pages st0 st ->
  visits_ok max_pages st0 -> visits_ok max_pages st.
Proof.
  intros Hreach. induction Hreach as [st|st st1 st2 Hs _ IH]; [auto|].
  intros Hok. apply IH. eapply visits_ok_step; eauto.
Qed.

Example crawl_shop_visits :
  visit_log Shop.final = [Shop.root; Shop.bows; Shop.recurve] /\
  elements (product_urls (scraper Shop.final)) = [Shop.recurve].
Proof. split; vm_compute; reflexivity. Qed.

(** A URL that is dequeued after it was visited is dropped without a
    request. *)
Lemma crawl_step_visited (w : World) (root_url : string) (max_pages : Z)
    (st st' : crawl_state) (current : string) (rest : list string) :
  crawl_step w root_url max_pages st = Some st' ->
  queue st = current :: rest ->
  current ∈ visited_urls (scraper st) ->
  st' = {| queue := rest; scraper := scraper st; clock := clock st;
           visit_log := visit_log st |}.
Proof.
  unfold crawl_step, crawl_body. intros Hs Hq Hv.
  destruct (crawl_guard max_pages st); [|discriminate].
  rewrite Hq in Hs. rewrite bool_decide_eq_true_2 in Hs by exact Hv.
  cbn [orb] in Hs. injection Hs as <-. reflexivity.
Qed.

(** C4 (amended): a turn of the loop takes the head off the queue and
    appends only links that are not yet visited and that the gate allows,
    each at most once per page; whether a link is already waiting in the
    queue is not looked at.  A head that is already visited is dropped
    without a request and nothing is appended. *)
Theorem crawl_enqueues_unvisited_allowed (w : World) (root_url : string)
    (max_pages : Z) (st st' : crawl_state) :
  crawl_step w root_url max_pages st = Some st' ->
  exists current rest appended,
    queue st = current :: rest /\
    queue st' = rest ++ appended /\
    NoDup appended /\
    (forall link, link ∈ appended ->
       (link ∉ visited_urls (scraper st')) /\
       can_fetch (scraper st') link = true) /\
    (current ∈ visited_urls (scraper st) ->
     appended = [] /\ scraper st' = scraper st /\ clock st' = clock st).
Proof.
  intros Hs.
  destruct (crawl_step_cases _ _ _ _ _ Hs)
    as (current & rest & Hq & _ & _ & [(_ & Hq' & _)|(Hnv & _ & _ & _ & Happ)]).
  - exists current, rest, []. rewrite app_nil_r.
    split; [exact Hq|]. split; [exact Hq'|]. split; [constructor|]. split.
    + intros link Hin. apply elem_of_nil in Hin. contradiction.
    + intros Hv. rewrite (crawl_step_visited _ _ _ _ _ _ _ Hs Hq Hv). auto.
  - destruct Happ as (appended & Hq' & Hnd & Hfresh).
    exists current, rest, appended.
    split; [exact Hq|]. split; [exact Hq'|]. split; [exact Hnd|]. split.
    + intros link Hin. destruct (Hfresh link Hin) as (H1 & H2 & _). auto.
    + intros Hv. contradiction.
Qed.

Lemma crawl_enqueues_unvisited_allowed_witness :
  crawl_step Shop.online Shop.root 1000 Shop.start = Some Shop.after_root /\
  exists current rest appended,
    queue Shop.start = current :: rest /\
    queue Shop.after_root = rest ++ appended /\
    NoDup appended /\
    (forall link, link ∈ appended ->
       (link ∉ visited_urls (scraper Shop.after_root)) /\
       can_fetch (scraper Shop.after_root) link = true) /\
    (current ∈ visited_urls (scraper Shop.start) ->
     appended = [] /\ scraper Shop.after_root = scraper Shop.start /\
     clock Shop.after_root = clock Shop.start).
Proof.
  assert (H : crawl_step Shop.online Shop.root 1000 Shop.start = Some Shop.after_root)
    by reflexivity.
  split; [exact H|].
  exact (crawl_enqueues_unvisited_allowed Shop.online Shop.root 1000
           Shop.start Shop.after_root H).
Defined.

(** C4, as stated, fails: both pages the root links to link to each other, so
    after two turns the queue holds the same URL twice. *)
Lemma crawl_queue_holds_duplicates :
  crawl_start Shop.online Scraper_new Shop.root 0 = Return Shop.start /\
  crawl_reach Shop.online Shop.root 1000 Shop.start Shop.after_two /\
  queue Shop.after_two = [Shop.recurve; Shop.recurve] /\
  ~ NoDup (queue Shop.after_two).
Proof.
  split; [reflexivity|]. split.
  - eapply rtc_l; [|apply rtc_once]; vm_compute; reflexivity.
  - assert (Hq : queue Shop.after_two = [Shop.recurve; Shop.recurve])
      by (vm_compute; reflexivity).
    split; [exact Hq|]. rewrite Hq. intros Hnd.
    apply NoDup_cons in Hnd as [Hnot _]. apply Hnot. left.
Qed.

Lemma queue_ok_step (w : World) (root_url : string) (max_pages : Z)
    (st st' : crawl_state) :
  crawl_step w root_url max_pages st = Some st' ->
  queue_ok root_url st -> queue_ok root_url st'.
Proof.
  intros Hs Hok url Hin.
  destruct (crawl_step_cases _ _ _ _ _ Hs)
    as (current & rest & Hq & _ & _ & [(_ & Hq' & _)|(_ & _ & _ & _ & Happ)]).
  - apply Hok. rewrite Hq, <- Hq'. apply elem_of_cons. right. exact Hin.
  - destruct Happ as (appended & Hq' & _ & Hfresh).
    rewrite Hq' in Hin. apply elem_of_app in Hin as [Hin|Hin].
    + apply Hok. rewrite Hq. apply elem_of_cons. right. exact Hin.
    + destruct (Hfresh url Hin) as (_ & _ & u & ->). right. apply clean_url_canonical.
Qed.

(** C7 (amended): every URL that link discovery puts on the queue has no
    fragment and no query; the root URL is put there as it was given. *)
Theorem queue_urls_canonical_but_root (w : World) (self : Scraper)
    (root_url : string) (max_pages : Z) (now : nat) (st0 st : crawl_state) :
  crawl_start w self root_url now = Return st0 ->
  crawl_reach w root_url max_pages st0 st ->
  forall url, url ∈ queue st ->
    url = root_url \/
    (PyStr.contains "#" url = false /\ PyStr.contains "?" url = false).
Proof.
  intros Hstart Hreach. change (queue_ok root_url st).
  assert (H0 : queue_ok root_url st0).
  { apply crawl_start_state in Hstart as (Hq & _). intros url Hin.
    rewrite Hq in Hin. apply list_elem_of_singleton in Hin. left. exact Hin. }
  clear Hstart. induction Hreach as [st|st st1 st2 Hs _ IH]; [exact H0|].
  apply IH. eapply queue_ok_step; eauto.
Qed.

Lemma queue_urls_canonical_but_root_witness :
  crawl_start Shop.online Scraper_new Shop.root 0 = Return Shop.start /\
  crawl_reach Shop.online Shop.root 1000 Shop.start Shop.after_root /\
  forall url, url ∈ queue Shop.after_root ->
    url = Shop.root \/
    (PyStr.contains "#" url = false /\ PyStr.contains "?" url = false).
Proof.
  assert (H1 : crawl_start Shop.online Scraper_new Shop.root 0 = Return Shop.start)
    by reflexivity.
  assert (H2 : crawl_reach Shop.online Shop.root 1000 Shop.start Shop.after_root).
  { apply rtc_once. reflexivity. }
  split; [exact H1|]. split; [exact H2|].
  exact (queue_urls_canonical_but_root Shop.online Scraper_new Shop.root 1000 0
           Shop.start Shop.after_root H1 H2).
Defined.

(** C7, as stated, fails for the root: a root URL with a query is put on the
    queue with its query. *)
Lemma root_with_query_is_enqueued :
  exists st,
    crawl_start Shop.online Scraper_new Shop.root_with_query 0 = Return st /\
    queue st = [Shop.root_with_query] /\
    PyStr.contains "?" Shop.root_with_query = true.
Proof. eexists. split; [reflexivity|]. split; reflexivity. Qed.

Example queue_after_root :
  queue Shop.after_root = [Shop.bows; Shop.recurve].
Proof. vm_compute. reflexivity. Qed.

(** ** The loop ends *)

(** Pages still within the budget, then URLs still in the queue: a turn of
    the loop lowers the first, or keeps it and lowers the second. *)
Lemma crawl_loop_ends_from (w : World) (root_url : string) (max_pages : Z)
    (budget : nat) :
  forall (pending : nat) (st : crawl_state),
    (Z.to_nat (max_pages - Z.of_nat (size (visited_urls (scraper st)))) <= budget)%nat ->
    (length (queue st) <= pending)%nat ->
    exists fuel st', crawl_loop w root_url max_pages fuel st = Some st'.
Proof.
  induction budget as [|budget IHb].
  - intros pending st Hb _. exists 0%nat, st. cbn [crawl_loop].
    destruct (crawl_step w root_url max_pages st) as [st1|] eqn:Hs; [|reflexivity].
    destruct (crawl_step_cases _ _ _ _ _ Hs) as (_ & _ & _ & Hlt & _). lia.
  - induction pending as [|pending IHp]; intros st Hb Hp.
    + exists 0%nat, st. cbn [crawl_loop].
      destruct (crawl_step w root_url max_pages st) as [st1|] eqn:Hs; [|reflexivity].
      destruct (crawl_step_cases _ _ _ _ _ Hs) as (c & r & Hq & _).
      rewrite Hq in Hp. cbn in Hp. lia.
    + destruct (crawl_step w root_url max_pages st) as [st1|] eqn:Hs.
      * assert (Hnext : exists fuel st', crawl_loop w root_url max_pages fuel st1 = Some st').
        { destruct (crawl_step_cases _ _ _ _ _ Hs)
            as (c & r & Hq & Hlt & _ & [(Hsc & Hq' & _)|(Hnv & _ & Hv & _)]).
          - apply IHp.
            + rewrite Hsc. exact Hb.
            + rewrite Hq in Hp. cbn [length] in Hp. rewrite Hq'. lia.
          - apply (IHb (length (queue st1))); [|lia].
            rewrite Hv, size_union, size_singleton by (apply disjoint_singleton_l, Hnv).
            lia. }
        destruct Hnext as (fuel & st' & Hl). exists (S fuel), st'.
        cbn [crawl_loop]. rewrite Hs. exact Hl.
      * exists 0%nat, st. cbn [crawl_loop]. rewrite Hs. reflexivity.
Qed.

(** With enough fuel [crawl_site] returns, whenever the root URL parses. *)
Lemma crawl_site_returns (w : World) (self : Scraper) (root_url : string)
    (max_pages : Z) (now : nat) (st0 : crawl_state) :
  crawl_start w self root_url now = Return st0 ->
  exists fuel st,
    crawl_site w self root_url max_pages now fuel = Return (Some st) /\
    crawl_reach w root_url max_pages st0 st.
Proof.
  intros Hstart.
  destruct (crawl_loop_ends_from w root_url max_pages _ _ st0 (le_n _) (le_n _))
    as (fuel & st & Hl).
  exists fuel, st. split; [|eapply crawl_loop_reach; eauto].
  unfold crawl_site. rewrite Hstart. cbn [mbind outcome_bind]. rewrite Hl. reflexivity.
Qed.

(** * Further properties *)

(** ** Product URLs *)

Lemma str_eq_exact (e m : string) : str_eq false e m = true <-> e = m.
Proof.
  revert m. induction e as [|c e IH]; intros [|a m]; cbn [str_eq];
    try (split; [discriminate|discriminate]); [tauto|].
  unfold Re.chr_eq. rewrite andb_true_iff, Ascii.eqb_eq, IH. split.
  - intros [-> ->]. reflexivity.
  - intros H. injection H as -> ->. auto.
Qed.

(** Where [.*] can stop. *)
Lemma accept_dotstar (ic : bool) (prev : option ascii) (s : string)
    (k : option ascii -> string -> bool) :
  Re.accept ic Re.DotStar prev s k = true ->
  exists m rest, s = m +:+ rest /\ k (last_of prev m) rest = true.
Proof.
  cbn [Re.accept]. revert prev. induction s as [|a s IH]; intros prev H.
  - rewrite orb_false_r in H. exists EmptyString, EmptyString. auto.
  - apply orb_true_iff in H as [H|H].
    + exists EmptyString, (String a s). auto.
    + destruct (Ascii.eqb a "010"); [discriminate|].
      destruct (IH _ H) as (m & rest & -> & Hk).
      exists (String a m), rest. auto.
Qed.

Lemma search_lit (s url : string) :
  Re.search false (Re.lit s) url = true <-> has_substring s url.
Proof.
  unfold Re.search, has_substring. rewrite scan_spec. split.
  - intros (pre & rest & -> & H). apply accept_lit in H as (m & post & -> & He & _).
    apply str_eq_exact in He as <-. eauto.
  - intros (pre & post & ->). exists pre, (s +:+ post). split; [reflexivity|].
    apply accept_lit. exists s, post. split; [reflexivity|].
    split; [apply str_eq_exact; reflexivity|reflexivity].
Qed.

(** X1: [is_product_url] holds exactly of the URLs that contain
    [/products/]; the pattern with [/collections/] adds nothing. *)
Theorem is_product_url_iff_substring (url : string) :
  is_product_url url = true <-> has_substring "/products/" url.
Proof.
  unfold is_product_url, product_patterns. cbn [existsb].
  rewrite orb_false_r, orb_true_iff, search_lit.
  split; [|intros H; left; exact H].
  intros [H|H]; [exact H|].
  unfold Re.search in H. apply scan_spec in H as (pre & rest & -> & H).
  cbn [Re.accept] in H.
  apply accept_lit in H as (m1 & rest1 & -> & _ & H).
  apply (accept_dotstar false) in H as (m2 & rest2 & -> & H).
  apply accept_lit in H as (m3 & post & -> & He & _).
  apply str_eq_exact in He as <-.
  exists (pre +:+ m1 +:+ m2), post. rewrite !append_assoc. reflexivity.
Qed.

(** ** Links of a page *)

Lemma collect_links_spec (w : World) (hrefs : list string) (root_url : string)
    (links out : gset string) :
  collect_links w hrefs root_url links = Return out ->
  forall x, x ∈ out <-> x ∈ links \/ kept_link w hrefs root_url x.
Proof.
  revert links. induction hrefs as [|href rest IH]; intros links H x.
  - injection H as <-. split; [auto|]. intros [Hx|(h & u & Hh & _)]; [exact Hx|].
    apply elem_of_nil in Hh. contradiction.
  - cbn [collect_links] in H.
    destruct (urljoin w root_url href) as [url|e] eqn:Hj; [|discriminate].
    cbn [mbind outcome_bind] in H.
    destruct (is_same_domain w url root_url) as [same|e] eqn:Hd; [|discriminate].
    cbn [mbind outcome_bind] in H.
    assert (Hrest : forall y, kept_link w (href :: rest) root_url y <->
              (same = true /\ is_media_file (clean_url url) = false /\
               y = clean_url url) \/ kept_link w rest root_url y).
    { intros y. split.
      - intros (h & u & Hh & Hu & Hs & Hy & Hm).
        apply elem_of_cons in Hh as [->|Hh].
        + rewrite Hj in Hu. injection Hu as <-. rewrite Hd in Hs.
          injection Hs as ->. subst y. left. auto.
        + right. exists h, u. auto.
      - intros [(-> & Hm & ->)|(h & u & Hh & Hk)].
        + exists href, url. repeat split; auto. apply elem_of_cons. auto.
        + exists h, u. split; [apply elem_of_cons; auto|exact Hk]. }
    rewrite Hrest. destruct same.
    + destruct (is_media_file (clean_url url)) eqn:Hm; cbn [negb] in H.
      * rewrite (IH _ H x). split; [tauto|].
        intros [?|[(_ & Hf & _)|?]]; [auto|discriminate|auto].
      * rewrite (IH _ H x), elem_of_union, elem_of_singleton. tauto.
    + rewrite (IH _ H x). split; [tauto|].
      intros [?|[(Hf & _)|?]]; [auto|discriminate|auto].
Qed.

Lemma get_all_links_kept (w : World) (soup : Soup) (root_url : string)
    (links : gset string) :
  get_all_links w soup root_url = Return links ->
  forall x, x ∈ links <-> kept_link w (a_hrefs soup) root_url x.
Proof.
  intros H x. rewrite (collect_links_spec _ _ _ _ _ H x). split; [|auto].
  intros [Hx|Hx]; [|exact Hx]. apply elem_of_empty in Hx. contradiction.
Qed.

(** X2: when [get_all_links] returns, its links are exactly the cleaned
    joins of the page's [href]s that stay on the root's netloc and are not
    media files. *)
Theorem get_all_links_spec (w : World) (soup : Soup) (root_url : string)
    (links : gset string) :
  get_all_links w soup root_url = Return links ->
  forall x, x ∈ links <-> kept_link w (a_hrefs soup) root_url x.
Proof. apply get_all_links_kept. Qed.

Lemma get_all_links_spec_witness :
  get_all_links Shop.online Shop.root_page Shop.root = Return Shop.root_links /\
  forall x, x ∈ Shop.root_links <->
            kept_link Shop.online (a_hrefs Shop.root_page) Shop.root x.
Proof.
  assert (H : get_all_links Shop.online Shop.root_page Shop.root
              = Return Shop.root_links) by (vm_compute; reflexivity).
  split; [exact H|].
  exact (get_all_links_spec Shop.online Shop.root_page Shop.root Shop.root_links H).
Defined.

(** ** More on the crawl loop *)

Lemma crawl_step_turn (w : World) (root_url : string) (max_pages : Z)
    (st st' : crawl_state) :
  crawl_step w root_url max_pages st = Some st' ->
  exists current_url rest,
    queue st = current_url :: rest /\
    (Z.of_nat (size (visited_urls (scraper st))) < max_pages)%Z /\
    crawl_turn w root_url st st' current_url rest.
Proof.
  unfold crawl_step, crawl_guard, crawl_body.
  destruct (queue st) as [|current rest]; [discriminate|].
  destruct (Z.of_nat (size (visited_urls (scraper st))) <? max_pages)%Z eqn:Hg;
    [|discriminate].
  apply Z.ltb_lt in Hg. intros H. injection H as <-.
  exists current, rest. split; [reflexivity|]. split; [exact Hg|].
  destruct (bool_decide (current ∈ visited_urls (scraper st))) eqn:Hv; cbn [orb].
  - apply bool_decide_eq_true in Hv. apply turn_skip; auto.
  - apply bool_decide_eq_false in Hv.
    destruct (can_fetch (scraper st) current) eqn:Hc; cbn [negb].
    + destruct (http_get w (clock st) current) as [soup|e] eqn:Hget.
      * eapply (turn_page _ _ _ _ _ _ soup); eauto.
        destruct (get_all_links w soup root_url) as [new_links|e] eqn:Hl.
        -- intros link Hin. apply list_elem_of_filter in Hin as [[_ Hc'] Hin].
           apply iter_set_elem in Hin. split; [|exact Hc'].
           eapply get_all_links_kept; eauto.
        -- intros link Hin. apply elem_of_nil in Hin. contradiction.
      * destruct e;
          first [ solve [eapply turn_fail; eauto; discriminate]
                | apply turn_unparsed; auto ].
    + apply turn_skip; auto.
Qed.

Lemma kept_link_crawlable (w : World) (hrefs : list string) (root_url link : string)
    (self : Scraper) :
  kept_link w hrefs root_url link -> can_fetch self link = true ->
  crawlable self root_url link.
Proof.
  intros (href & url & _ & _ & _ & -> & Hm) Hc. right.
  split; [exact Hc|]. split; [apply clean_url_no_fragment|].
  split; [apply clean_url_no_query|exact Hm].
Qed.

Lemma sets_ok_step (w : World) (root_url : string) (max_pages : Z)
    (st st' : crawl_state) :
  crawl_step w root_url max_pages st = Some st' ->
  sets_ok root_url st -> sets_ok root_url st'.
Proof.
  intros Hs (Hq & Hv & Hp).
  destruct (crawl_step_turn _ _ _ _ _ Hs) as (current & rest & Hqueue & _ & Ht).
  assert (Hrest : forall url, url ∈ rest -> crawlable (scraper st) root_url url).
  { intros url Hin. apply Hq. rewrite Hqueue. apply elem_of_cons. auto. }
  assert (Hcur : crawlable (scraper st) root_url current).
  { apply Hq. rewrite Hqueue. apply elem_of_cons. auto. }
  assert (Hturn : exists appended,
            can_fetch (scraper st) current = true /\
            (forall link, link ∈ appended ->
               crawlable (scraper st) root_url link) /\
            st' = {| queue := rest ++ appended;
                     scraper := mark_visited (scraper st) current;
                     clock := S (clock st);
                     visit_log := visit_log st ++ [current] |} \/
          st' = {| queue := rest; scraper := scraper st; clock := clock st;
                   visit_log := visit_log st |} \/
          st' = {| queue := rest; scraper := scraper st; clock := S (clock st);
                   visit_log := visit_log st |}).
  { destruct Ht as [_ ->|e _ _ _ _ ->|_ Hc _ ->|soup appended _ Hc _ Happ ->].
    - exists []. auto.
    - exists []. auto.
    - exists []. left. rewrite app_nil_r. split; [exact Hc|]. split; [|reflexivity].
      intros link Hin. apply elem_of_nil in Hin. contradiction.
    - exists appended. left. split; [exact Hc|]. split; [|reflexivity].
      intros link Hin. destruct (Happ link Hin) as [Hk Hcl].
      eapply kept_link_crawlable; eauto. }
  destruct Hturn as (appended & [(Hc & Happ & ->)|[->| ->]]);
    try (split; [exact Hrest|split; [exact Hv|exact Hp]]).
  unfold sets_ok. cbn [queue scraper visited_urls product_urls].
  assert (Hcf : forall url, can_fetch (mark_visited (scraper st) current) url
                            = can_fetch (scraper st) url) by reflexivity.
  assert (Hcr : forall url, crawlable (scraper st) root_url url ->
                  crawlable (mark_visited (scraper st) current) root_url url).
  { intros url [->|H]; [left; reflexivity|right; exact H]. }
  split; [|split].
  - intros url Hin. apply elem_of_app in Hin as [Hin|Hin]; auto.
  - intros url Hin. rewrite Hcf. unfold mark_visited in Hin.
    cbn [visited_urls] in Hin. apply elem_of_union in Hin as [Hin|Hin].
    + apply elem_of_singleton in Hin as ->. auto.
    + destruct (Hv url Hin). auto.
  - intros url. unfold mark_visited. cbn [visited_urls product_urls].
    destruct (is_product_url current) eqn:Hprod.
    + rewrite !elem_of_union, !elem_of_singleton, Hp. split.
      * intros [->|[? ?]]; auto.
      * intros [[->|?] ?]; auto.
    + rewrite elem_of_union, elem_of_singleton, Hp. split.
      * intros [? ?]; auto.
      * intros [[->|?] Hu]; [rewrite Hprod in Hu; discriminate|auto].
Qed.

Lemma sets_ok_reach (w : World) (self : Scraper) (root_url : string)
    (max_pages : Z) (now : nat) (st0 st : crawl_state) :
  crawl_start w self root_url now = Return st0 ->
  crawl_reach w root_url max_pages st0 st ->
  sets_ok root_url st.
Proof.
  intros Hstart Hreach.
  assert (H0 : sets_ok root_url st0).
  { unfold crawl_start in Hstart.
    destruct (read_robots_txt w _ root_url) as [self'|e] eqn:Hr; [|discriminate].
    cbn [mbind outcome_bind] in Hstart. injection Hstart as <-.
    apply read_robots_txt_sets_parser in Hr as (Hv & Hp & _).
    cbn [visited_urls product_urls] in Hv, Hp.
    unfold sets_ok. cbn [queue scraper]. rewrite Hv, Hp. split; [|split].
    - intros url Hin. apply list_elem_of_singleton in Hin. left. exact Hin.
    - intros url Hin. apply elem_of_empty in Hin. contradiction.
    - intros url. rewrite !elem_of_empty. tauto. }
  clear Hstart. induction Hreach as [st|st st1 st2 Hs _ IH]; [exact H0|].
  apply IH. eapply sets_ok_step; eauto.
Qed.

(** X3: at every turn of a crawl, the product set is the part of the
    visited set whose URLs [is_product_url] accepts. *)
Theorem product_urls_are_visited_products (w : World) (self : Scraper)
    (root_url : string) (max_pages : Z) (now : nat) (st0 st : crawl_state) :
  crawl_start w self root_url now = Return st0 ->
  crawl_reach w root_url max_pages st0 st ->
  forall url, url ∈ product_urls (scraper st) <->
              url ∈ visited_urls (scraper st) /\ is_product_url url = true.
Proof.
  intros Hstart Hreach. apply (sets_ok_reach _ _ _ _ _ _ _ Hstart Hreach).
Qed.

(** X4: every URL a crawl marks visited passed the gate, and it is the root
    URL as given or a link without fragment and query that is not a media
    file. *)
Theorem visited_urls_allowed_and_clean (w : World) (self : Scraper)
    (root_url : string) (max_pages : Z) (now : nat) (st0 st : crawl_state) :
  crawl_start w self root_url now = Return st0 ->
  crawl_reach w root_url max_pages st0 st ->
  forall url, url ∈ visited_urls (scraper st) ->
    can_fetch (scraper st) url = true /\
    (url = root_url \/
     (PyStr.contains "#" url = false /\ PyStr.contains "?" url = false /\
      is_media_file url = false)).
Proof.
  intros Hstart Hreach url Hin.
  destruct (sets_ok_reach _ _ _ _ _ _ _ Hstart Hreach) as (_ & Hv & _).
  destruct (Hv url Hin) as [Hc [->|(_ & H1 & H2 & H3)]]; auto.
Qed.

Lemma shop_crawl_reaches_final :
  crawl_reach Shop.online Shop.root 1000 Shop.start Shop.final.
Proof. apply (crawl_loop_reach _ _ _ 10). vm_compute. reflexivity. Qed.

Lemma product_urls_are_visited_products_witness :
  crawl_start Shop.online Scraper_new Shop.root 0 = Return Shop.start /\
  crawl_reach Shop.online Shop.root 1000 Shop.start Shop.final /\
  forall url, url ∈ product_urls (scraper Shop.final) <->
              url ∈ visited_urls (scraper Shop.final) /\ is_product_url url = true.
Proof.
  assert (H1 : crawl_start Shop.online Scraper_new Shop.root 0 = Return Shop.start)
    by reflexivity.
  split; [exact H1|]. split; [exact shop_crawl_reaches_final|].
  exact (product_urls_are_visited_products Shop.online Scraper_new Shop.root 1000 0
           Shop.start Shop.final H1 shop_crawl_reaches_final).
Defined.

Lemma visited_urls_allowed_and_clean_witness :
  Shop.recurve ∈ visited_urls (scraper Shop.final) /\
  can_fetch (scraper Shop.final) Shop.recurve = true /\
  (Shop.recurve = Shop.root \/
   (PyStr.contains "#" Shop.recurve = false /\
    PyStr.contains "?" Shop.recurve = false /\
    is_media_file Shop.recurve = false)).
Proof.
  assert (H1 : crawl_start Shop.online Scraper_new Shop.root 0 = Return Shop.start)
    by reflexivity.
  assert (H3 : Shop.recurve ∈ visited_urls (scraper Shop.final)).
  { apply (bool_decide_unpack _). vm_compute. exact I. }
  split; [exact H3|].
  exact (visited_urls_allowed_and_clean Shop.online Scraper_new Shop.root 1000 0
           Shop.start Shop.final H1 shop_crawl_reaches_final Shop.recurve H3).
Defined.

(** ** How a crawl ends *)

(** X5: the crawl loop cannot go on for ever: there is no endless sequence
    of turns, whatever the site, the budget and the gate. *)
Theorem crawl_loop_cannot_run_for_ever (w : World) (root_url : string)
    (max_pages : Z) (st : crawl_state) :
  sn (fun st st' => crawl_step w root_url max_pages st = Some st') st.
Proof.
  destruct (crawl_loop_ends_from w root_url max_pages _ _ st (le_n _) (le_n _))
    as (fuel & st' & Hl).
  revert st Hl. induction fuel as [|fuel IH]; intros st Hl;
    constructor; intros st1 Hs; unfold flip in Hs;
    cbn [crawl_loop] in Hl; rewrite Hs in Hl; [discriminate|].
  apply IH, Hl.
Qed.

(** X6: with a budget of zero pages or less the loop is not entered: the
    crawl returns at once, whatever the fuel, with no product and without a
    request. *)
Theorem crawl_site_no_budget (w : World) (self : Scraper) (root_url : string)
    (max_pages : Z) (now fuel : nat) (st0 : crawl_state) :
  (max_pages <= 0)%Z ->
  crawl_start w self root_url now = Return st0 ->
  crawl_site w self root_url max_pages now fuel = Return (Some st0) /\
  product_urls (scraper st0) = ∅ /\ visited_urls (scraper st0) = ∅ /\
  clock st0 = now.
Proof.
  intros Hmax Hs. unfold crawl_site. rewrite Hs. cbn [mbind outcome_bind].
  assert (Hstep : crawl_step w root_url max_pages st0 = None).
  { unfold crawl_step, crawl_guard. destruct (queue st0); [reflexivity|].
    destruct (Z.ltb_spec (Z.of_nat (size (visited_urls (scraper st0)))) max_pages);
      [lia|reflexivity]. }
  split; [destruct fuel; cbn [crawl_loop]; rewrite Hstep; reflexivity|].
  unfold crawl_start in Hs.
  destruct (read_robots_txt w _ root_url) as [self'|e] eqn:Hr; [|discriminate].
  cbn [mbind outcome_bind] in Hs. injection Hs as <-.
  apply read_robots_txt_sets_parser in Hr as (Hv & Hp & _). auto.
Qed.

Lemma crawl_site_no_budget_witness :
  (0 <= 0)%Z /\
  crawl_start Shop.online Scraper_new Shop.root 0 = Return Shop.start /\
  crawl_site Shop.online Scraper_new Shop.root 0 0 5 = Return (Some Shop.start) /\
  product_urls (scraper Shop.start) = ∅ /\ visited_urls (scraper Shop.start) = ∅ /\
  clock Shop.start = 0%nat.
Proof.
  assert (H0 : (0 <= 0)%Z) by lia.
  assert (H1 : crawl_start Shop.online Scraper_new Shop.root 0 = Return Shop.start)
    by reflexivity.
  split; [exact H0|]. split; [exact H1|].
  exact (crawl_site_no_budget Shop.online Scraper_new Shop.root 0 0 5 Shop.start H0 H1).
Defined.

(** X7: when the gate refuses the root URL, or the request for it fails
    before a response is there, a crawl that returns has visited nothing
    and returns no product. *)
Theorem crawl_site_root_unavailable (w : World) (self : Scraper)
    (root_url : string) (max_pages : Z) (now fuel : nat) (st0 st : crawl_state) :
  crawl_start w self root_url now = Return st0 ->
  can_fetch (scraper st0) root_url = false \/
    (exists e, http_get w now root_url = Raise e /\ e <> ParserRejectedMarkup) ->
  crawl_site w self root_url max_pages now fuel = Return (Some st) ->
  visited_urls (scraper st) = ∅ /\ product_urls (scraper st) = ∅ /\
  visit_log st = [].
Proof.
  intros Hs Hbad. unfold crawl_site. rewrite Hs. cbn [mbind outcome_bind].
  intros Hret. injection Hret as Hloop.
  assert (Hst : queue st0 = [root_url] /\ visited_urls (scraper st0) = ∅ /\
                product_urls (scraper st0) = ∅ /\ visit_log st0 = [] /\ clock st0 = now).
  { unfold crawl_start in Hs.
    destruct (read_robots_txt w _ root_url) as [self'|e] eqn:Hr; [|discriminate].
    cbn [mbind outcome_bind] in Hs. injection Hs as <-.
    apply read_robots_txt_sets_parser in Hr as (Hv & Hp & _). auto. }
  destruct Hst as (Hq & Hv & Hp & Hl & Hc).
  destruct (crawl_step w root_url max_pages st0) as [st1|] eqn:Hstep.
  - assert (H1 : queue st1 = [] /\ scraper st1 = scraper st0 /\ visit_log st1 = []).
    { unfold crawl_step, crawl_body in Hstep. rewrite Hq in Hstep.
      destruct (crawl_guard max_pages st0); [|discriminate].
      rewrite Hv in Hstep.
      rewrite bool_decide_eq_false_2 in Hstep by apply not_elem_of_empty.
      cbn [orb] in Hstep.
      destruct (can_fetch (scraper st0) root_url) eqn:Hcf; cbn [negb] in Hstep.
      - destruct Hbad as [?|(e & He & Hne)]; [discriminate|].
        rewrite Hc, He in Hstep.
        destruct e; try contradiction; injection Hstep as <-; cbn; auto.
      - injection Hstep as <-. cbn. auto. }
    destruct H1 as (Hq1 & Hsc1 & Hl1).
    assert (Hend : crawl_step w root_url max_pages st1 = None).
    { unfold crawl_step, crawl_guard. rewrite Hq1. reflexivity. }
    destruct fuel as [|fuel]; cbn [crawl_loop] in Hloop; rewrite Hstep in Hloop;
      [discriminate|].
    destruct fuel; cbn [crawl_loop] in Hloop; rewrite Hend in Hloop;
      injection Hloop as <-; rewrite Hsc1; auto.
  - destruct fuel; cbn [crawl_loop] in Hloop; rewrite Hstep in Hloop;
      injection Hloop as <-; auto.
Qed.

Lemma crawl_site_root_unavailable_witness :
  crawl_start Shop.offline Scraper_new Shop.root 0 = Return Shop.offline_start /\
  can_fetch (scraper Shop.offline_start) Shop.root = false /\
  crawl_site Shop.offline Scraper_new Shop.root 1000 0 1
    = Return (Some Shop.offline_end) /\
  visited_urls (scraper Shop.offline_end) = ∅ /\
  product_urls (scraper Shop.offline_end) = ∅ /\
  visit_log Shop.offline_end = [].
Proof.
  assert (H1 : crawl_start Shop.offline Scraper_new Shop.root 0
               = Return Shop.offline_start) by reflexivity.
  assert (H2 : can_fetch (scraper Shop.offline_start) Shop.root = false)
    by reflexivity.
  assert (H3 : crawl_site Shop.offline Scraper_new Shop.root 1000 0 1
               = Return (Some Shop.offline_end)) by reflexivity.
  split; [exact H1|]. split; [exact H2|]. split; [exact H3|].
  exact (crawl_site_root_unavailable Shop.offline Scraper_new Shop.root 1000 0 1
           Shop.offline_start Shop.offline_end H1 (or_introl H2) H3).
Defined.

(** X8: [crawl_site] starts every session afresh: what it returns does not
    depend on the sets and the parser an earlier crawl left in the
    scraper. *)
Theorem crawl_site_fresh_session (w : World) (self : Scraper) (root_url : string)
    (max_pages : Z) (now fuel : nat) :
  crawl_site w self root_url max_pages now fuel =
  crawl_site w Scraper_new root_url max_pages now fuel.
Proof.
  unfold crawl_site, crawl_start, read_robots_txt. cbn [visited_urls product_urls].
  destruct (urlparse w root_url); reflexivity.
Qed.

(** X9: a turn of the loop sends at most one request, and only for a head
    of the queue that is not yet visited and that the gate allows. *)
Theorem crawl_requests_only_allowed (w : World) (root_url : string)
    (max_pages : Z) (st st' : crawl_state) :
  crawl_step w root_url max_pages st = Some st' ->
  clock st' = clock st \/
  (clock st' = S (clock st) /\
   exists current_url rest,
     queue st = current_url :: rest /\
     (current_url ∉ visited_urls (scraper st)) /\
     can_fetch (scraper st) current_url = true).
Proof.
  intros Hs.
  destruct (crawl_step_turn _ _ _ _ _ Hs) as (current & rest & Hq & _ & Ht).
  destruct Ht as [_ ->|e Hnv Hc _ _ ->|Hnv Hc _ ->|soup appended Hnv Hc _ _ ->].
  - left. reflexivity.
  - right. split; [reflexivity|]. eauto.
  - right. split; [reflexivity|]. eauto.
  - right. split; [reflexivity|]. eauto.
Qed.

Lemma crawl_requests_only_allowed_witness :
  crawl_step Shop.online Shop.root 1000 Shop.start = Some Shop.after_root /\
  (clock Shop.after_root = clock Shop.start \/
   (clock Shop.after_root = S (clock Shop.start) /\
    exists current_url rest,
      queue Shop.start = current_url :: rest /\
      (current_url ∉ visited_urls (scraper Shop.start)) /\
      can_fetch (scraper Shop.start) current_url = true)).
Proof.
  assert (H : crawl_step Shop.online Shop.root 1000 Shop.start = Some Shop.after_root)
    by reflexivity.
  split; [exact H|].
  exact (crawl_requests_only_allowed Shop.online Shop.root 1000
           Shop.start Shop.after_root H).
Defined.

(** X10: every URL waiting in the queue is the root URL as given, or a link
    that the gate allows, without fragment and query, and not a media file. *)
Theorem queue_urls_allowed_and_clean (w : World) (self : Scraper)
    (root_url : string) (max_pages : Z) (now : nat) (st0 st : crawl_state) :
  crawl_start w self root_url now = Return st0 ->
  crawl_reach w root_url max_pages st0 st ->
  forall url, url ∈ queue st ->
    url = root_url \/
    (can_fetch (scraper st) url = true /\
     PyStr.contains "#" url = false /\ PyStr.contains "?" url = false /\
     is_media_file url = false).
Proof.
  intros Hstart Hreach url Hin.
  destruct (sets_ok_reach _ _ _ _ _ _ _ Hstart Hreach) as (Hq & _ & _).
  exact (Hq url Hin).
Qed.

Lemma queue_urls_allowed_and_clean_witness :
  Shop.bows ∈ queue Shop.after_root /\
  (Shop.bows = Shop.root \/
   (can_fetch (scraper Shop.after_root) Shop.bows = true /\
    PyStr.contains "#" Shop.bows = false /\ PyStr.contains "?" Shop.bows = false /\
    is_media_file Shop.bows = false)).
Proof.
  assert (H1 : crawl_start Shop.online Scraper_new Shop.root 0 = Return Shop.start)
    by reflexivity.
  assert (H2 : crawl_reach Shop.online Shop.root 1000 Shop.start Shop.after_root).
  { apply rtc_once. reflexivity. }
  assert (H3 : Shop.bows ∈ queue Shop.after_root).
  { apply (bool_decide_unpack _). vm_compute. exact I. }
  split; [exact H3|].
  exact (queue_urls_allowed_and_clean Shop.online Scraper_new Shop.root 1000 0
           Shop.start Shop.after_root H1 H2 Shop.bows H3).
Defined.

(** ** The gate after [read_robots_txt] *)



(** ** Dicts *)

Lemma dict_get_set_ne {V : Type} (k k' : string) (v : V) (d : pydict V) :
  k' <> k -> dict_get k (dict_set k' v d) = dict_get k d.
Proof.
  intros Hne. induction d as [|[k0 v0] d IH]; cbn [dict_set dict_get].
  - destruct (String.eqb_spec k' k); [contradiction|reflexivity].
  - destruct (String.eqb_spec k0 k') as [->|Hk0]; cbn [dict_get].
    + destruct (String.eqb_spec k' k); [contradiction|reflexivity].
    + destruct (String.eqb k0 k); [reflexivity|exact IH].
Qed.

Lemma dict_get_set_any {V : Type} (k k' : string) (v : V) (d : pydict V) :
  dict_get k (dict_set k' v d) = if String.eqb k' k then Some v else dict_get k d.
Proof.
  destruct (String.eqb_spec k' k) as [->|Hne].
  - apply dict_get_set.
  - apply dict_get_set_ne, Hne.
Qed.

Lemma dict_get_app {V : Type} (k : string) (a b : list (string * V)) :
  dict_get k (a ++ b) =
  match dict_get k a with Some v => Some v | None => dict_get k b end.
Proof.
  induction a as [|[k0 v0] a IH]; cbn [app dict_get]; [reflexivity|].
  destruct (String.eqb k0 k); [reflexivity|exact IH].
Qed.

(** After [d.update(items)] a key holds its last value in [items], or what
    it held in [d]. *)
Lemma dict_get_update {V : Type} (k : string) (d : pydict V)
    (items : list (string * V)) :
  dict_get k (dict_update d items) =
  match last_value k items with Some v => Some v | None => dict_get k d end.
Proof.
  unfold last_value, dict_update. revert d.
  induction items as [|[k0 v0] items IH]; intros d; cbn [fold_left rev];
    [reflexivity|].
  rewrite IH, dict_get_app. cbn [fst snd dict_get].
  destruct (dict_get k (rev items)); [reflexivity|].
  rewrite dict_get_set_any. destruct (String.eqb k0 k); reflexivity.
Qed.

Lemma dict_set_keys {V : Type} (k : string) (v : V) (d : pydict V) :
  dict_keys (dict_set k v d) =
  if bool_decide (k ∈ dict_keys d) then dict_keys d else dict_keys d ++ [k].
Proof.
  unfold dict_keys. induction d as [|[k0 v0] d IH]; cbn [dict_set map fst];
    [reflexivity|].
  destruct (String.eqb_spec k0 k) as [->|Hne]; cbn [map fst].
  - rewrite bool_decide_eq_true_2 by (apply elem_of_cons; auto). reflexivity.
  - rewrite IH. destruct (bool_decide_reflect (k ∈ map fst d)) as [Hin|Hnin].
    + rewrite bool_decide_eq_true_2 by (apply elem_of_cons; auto). reflexivity.
    + rewrite bool_decide_eq_false_2; [reflexivity|].
      intros Hin. apply elem_of_cons in Hin as [->|Hin]; contradiction.
Qed.

Lemma dict_set_NoDup {V : Type} (k : string) (v : V) (d : pydict V) :
  NoDup (dict_keys d) -> NoDup (dict_keys (dict_set k v d)).
Proof.
  intros Hnd. rewrite dict_set_keys.
  destruct (bool_decide_reflect (k ∈ dict_keys d)) as [Hin|Hnin]; [exact Hnd|].
  apply NoDup_app. split; [exact Hnd|]. split; [|apply NoDup_singleton].
  intros x Hx Hx'. apply list_elem_of_singleton in Hx' as ->. contradiction.
Qed.

Lemma dict_update_NoDup {V : Type} (d : pydict V) (items : list (string * V)) :
  NoDup (dict_keys d) -> NoDup (dict_keys (dict_update d items)).
Proof.
  unfold dict_update. revert d.
  induction items as [|[k v] items IH]; intros d Hnd; cbn [fold_left]; [exact Hnd|].
  apply IH, dict_set_NoDup, Hnd.
Qed.

Lemma dict_set_Forall {V : Type} (Q : string * V -> Prop) (k : string) (v : V)
    (d : pydict V) :
  Q (k, v) -> Forall Q d -> Forall Q (dict_set k v d).
Proof.
  intros Hq Hd. induction Hd as [|[k0 v0] d Hx Hd IH]; cbn [dict_set].
  - constructor; [exact Hq|constructor].
  - destruct (String.eqb_spec k0 k) as [->|Hne]; constructor; auto.
Qed.

Lemma dict_update_Forall {V : Type} (Q : string * V -> Prop) (d : pydict V)
    (items : list (string * V)) :
  Forall Q d -> Forall Q items -> Forall Q (dict_update d items).
Proof.
  unfold dict_update. intros Hd Hi. revert d Hd.
  induction Hi as [|[k v] items Hx Hi IH]; intros d Hd; cbn [fold_left]; [exact Hd|].
  apply IH, dict_set_Forall; assumption.
Qed.

Lemma dict_of_items_Forall {V : Type} (Q : string * V -> Prop)
    (items : list (string * V)) :
  Forall Q items -> Forall Q (dict_of_items items).
Proof. apply dict_update_Forall. constructor. Qed.

(** In a dict the first value of a key is its last. *)
Lemma last_value_dict {V : Type} (k : string) (d : pydict V) :
  NoDup (dict_keys d) -> last_value k d = dict_get k d.
Proof.
  unfold last_value, dict_keys. induction d as [|[k0 v0] d IH]; intros Hnd;
    cbn [rev map fst dict_get]; [reflexivity|].
  apply NoDup_cons in Hnd as [Hnin Hnd]. rewrite dict_get_app, IH by exact Hnd.
  cbn [dict_get]. destruct (String.eqb_spec k0 k) as [->|Hne].
  - assert (Hnone : dict_get k d = None).
    { clear -Hnin. induction d as [|[k1 v1] d IH]; [reflexivity|].
      cbn [dict_get]. destruct (String.eqb_spec k1 k) as [->|Hne].
      - exfalso. apply Hnin. cbn. apply elem_of_cons. auto.
      - apply IH. intros Hin. apply Hnin. cbn. apply elem_of_cons. auto. }
    rewrite Hnone. reflexivity.
  - destruct (dict_get k d); reflexivity.
Qed.

(** ** More on flattening *)

Section JsonInduction.
Variable P : json -> Prop.
Hypothesis HNull : P JNull.
Hypothesis HBool : forall b, P (JBool b).
Hypothesis HInt : forall n, P (JInt n).
Hypothesis HFloat : forall repr, P (JFloat repr).
Hypothesis HStr : forall s, P (JStr s).
Hypothesis HList : forall l, Forall P l -> P (JList l).
Hypothesis HDict : forall entries, Forall (fun kv => P kv.2) entries -> P (JDict entries).

(** Induction on a JSON value, through its lists and objects. *)
Fixpoint json_nested_ind (j : json) : P j :=
  match j with
  | JNull => HNull
  | JBool b => HBool b
  | JInt n => HInt n
  | JFloat repr => HFloat repr
  | JStr s => HStr s
  | JList l =>
      HList l
        ((fix each (l : list json) : Forall P l :=
            match l with
            | [] => @List.Forall_nil _ P
            | x :: l' => @List.Forall_cons _ P x l' (json_nested_ind x) (each l')
            end) l)
  | JDict entries =>
      HDict entries
        ((fix each (es : list (string * json)) : Forall (fun kv => P kv.2) es :=
            match es with
            | [] => @List.Forall_nil _ (fun kv => P kv.2)
            | kv :: es' =>
                @List.Forall_cons _ (fun kv => P kv.2) kv es'
                  (json_nested_ind kv.2) (each es')
            end) entries)
  end.
End JsonInduction.

Lemma new_key_of_root (sep k : string) : new_key_of "" sep k = k.
Proof. reflexivity. Qed.

(** The flattening of an object under a key path is what an entry with
    that key and the object for value brings in. *)
Lemma flatten_dict_as_entry (entries : list (string * json)) (path sep : string) :
  flatten_dict (JDict entries) path sep = entry_items "" sep (path, JDict entries).
Proof. reflexivity. Qed.

Lemma Forall_flat_map {A B : Type} (Q : B -> Prop) (f : A -> list B) (l : list A) :
  Forall (fun x => Forall Q (f x)) l -> Forall Q (flat_map f l).
Proof.
  intros H. induction H as [|x l Hx _ IH]; cbn [flat_map]; [constructor|].
  apply Forall_app. auto.
Qed.

(** A property [Q path] of items that holds of a leaf stored under [path]
    and passes from a longer key path to the path it extends, holds of all
    that an entry brings in under its key path. *)
Lemma entry_items_Forall (Q : string -> string * json -> Prop) (sep : string) :
  (forall path v, is_leaf v = true -> Q path (path, v)) ->
  (forall path k kv, Q (new_key_of path sep k) kv -> Q path kv) ->
  (forall path i kv, Q (path +:+ sep +:+ PyStr.of_nat i) kv -> Q path kv) ->
  forall (v : json) (parent_key k : string),
    Forall (Q (new_key_of parent_key sep k)) (entry_items parent_key sep (k, v)).
Proof.
  intros Hleaf Hdown Hidx v.
  induction v as [| | | | |l IHl|entries IHe] using json_nested_ind;
    intros parent_key k; unfold entry_items; cbn [fst snd];
    try (constructor; [apply Hleaf; reflexivity|constructor]).
  - destruct (forallb is_str_int_float l).
    + constructor; [apply Hleaf; reflexivity|constructor].
    + generalize 0%nat. induction IHl as [|item l Hitem _ IH]; intros i;
        cbn [list_items]; [constructor|].
      apply Forall_app. split; [|apply IH].
      destruct item as [| | | | |l'|es]; cbn [element_items]; try constructor.
      rewrite flatten_dict_as_entry.
      specialize (Hitem "" (new_key_of parent_key sep k +:+ sep +:+ PyStr.of_nat i)).
      rewrite new_key_of_root in Hitem.
      eapply Forall_impl; [exact Hitem|]. intros kv. apply Hidx.
  - rewrite flatten_dict_items. apply dict_of_items_Forall, Forall_flat_map.
    eapply Forall_impl; [exact IHe|]. intros [k' v'] H. cbn [snd] in H.
    specialize (H (new_key_of parent_key sep k) k').
    eapply Forall_impl; [exact H|]. intros kv. apply Hdown.
Qed.

Lemma flatten_dict_Forall (Q : string -> string * json -> Prop) (sep : string) :
  (forall path v, is_leaf v = true -> Q path (path, v)) ->
  (forall path k kv, Q (new_key_of path sep k) kv -> Q path kv) ->
  (forall path i kv, Q (path +:+ sep +:+ PyStr.of_nat i) kv -> Q path kv) ->
  forall (d : json) (parent_key : string),
    Forall (Q parent_key) (flatten_dict d parent_key sep).
Proof.
  intros Hleaf Hdown Hidx d parent_key.
  destruct d; try (cbn [flatten_dict]; constructor).
  rewrite flatten_dict_as_entry.
  exact (entry_items_Forall Q sep Hleaf Hdown Hidx _ "" parent_key).
Qed.

(** X12: the record [_flatten_dict] returns is flat: none of its values is
    an object or a list. *)
Theorem flatten_dict_values_are_leaves (d : json) (parent_key sep : string) :
  Forall (fun kv => is_leaf kv.2 = true) (flatten_dict d parent_key sep).
Proof.
  apply (flatten_dict_Forall (fun _ kv => is_leaf kv.2 = true) sep); auto.
Qed.

Lemma starts_with_refl (s : string) : starts_with s s.
Proof.
  exists EmptyString. induction s as [|a s IH]; [reflexivity|].
  rewrite append_cons, <- IH. reflexivity.
Qed.

Lemma starts_with_trans (a b c : string) :
  starts_with a b -> starts_with b c -> starts_with a c.
Proof.
  intros (r1 & ->) (r2 & ->). exists (r1 +:+ r2). apply append_assoc.
Qed.

Lemma starts_with_new_key (path sep k : string) :
  starts_with path (new_key_of path sep k).
Proof.
  unfold new_key_of. destruct (String.eqb_spec path "") as [->|_].
  - exists k. reflexivity.
  - exists (sep +:+ k). reflexivity.
Qed.

(** X13: every key of the record [_flatten_dict] returns starts with the
    parent key it was called with. *)
Theorem flatten_dict_keys_start_with_parent (d : json) (parent_key sep : string) :
  Forall (fun kv => starts_with parent_key kv.1) (flatten_dict d parent_key sep).
Proof.
  apply (flatten_dict_Forall (fun path kv => starts_with path kv.1) sep).
  - intros path v _. apply starts_with_refl.
  - intros path k kv H. eapply starts_with_trans; [apply starts_with_new_key|exact H].
  - intros path i kv H. eapply starts_with_trans; [|exact H].
    exists (sep +:+ PyStr.of_nat i). reflexivity.
Qed.

(** The keys of the record are distinct. *)
Lemma flatten_dict_NoDup (d : json) (parent_key sep : string) :
  NoDup (dict_keys (flatten_dict d parent_key sep)).
Proof.
  destruct d; try (cbn [flatten_dict]; constructor).
  rewrite flatten_dict_items. apply dict_update_NoDup. constructor.
Qed.

(** ** More on extraction *)

(** X14: [extract_schema_data] raises exactly the exception of the first
    JSON-LD script tag that raises: [TypeError] for a tag without a string,
    and what [json.loads] raises on the string of a tag other than
    [json.JSONDecodeError].  When no tag raises it returns a record: a tag
    whose string is not JSON never makes it raise. *)
Theorem extract_schema_data_raises_iff (json_loads : string -> loads_result)
    (soup : Soup) :
  (forall e,
     extract_schema_data json_loads soup = Raise e <->
     exists pre tag rest,
       ld_json_scripts soup = pre ++ tag :: rest /\
       Forall (fun tag => tag_raises json_loads tag = None) pre /\
       tag_raises json_loads tag = Some e) /\
  (Forall (fun tag => tag_raises json_loads tag = None) (ld_json_scripts soup) ->
   exists d, extract_schema_data json_loads soup = Return d).
Proof.
  split; [|apply extract_schema_data_returns].
  intros e. split.
  - intros H. destruct (tags_split json_loads (ld_json_scripts soup))
      as [Hall|(pre & tag & rest & e' & Hs & Hpre & Ht)].
    + destruct (extract_schema_data_returns _ _ Hall) as (d & Hd).
      rewrite Hd in H. discriminate.
    + rewrite (extract_schema_data_raises _ _ _ _ _ _ Hs Hpre Ht) in H.
      injection H as ->. eauto 6.
  - intros (pre & tag & rest & Hs & Hpre & Ht).
    eapply extract_schema_data_raises; eauto.
Qed.

Example tag_raises_cases (json_loads : string -> loads_result) (text : string) :
  tag_raises json_loads None = Some TypeError /\
  (json_loads text = DecodeError -> tag_raises json_loads (Some text) = None) /\
  (json_loads text = LoadsRaises RecursionError ->
   tag_raises json_loads (Some text) = Some RecursionError).
Proof.
  split; [reflexivity|]. split; intros H; cbn [tag_raises]; rewrite H; reflexivity.
Qed.

(** X15: merging a parsed object into the record: an object typed [Product]
    or [WebPage] gives each key of its flattening its new value and leaves
    the other keys as they were, so a later block wins over an earlier one;
    an object of another type, or without type, changes nothing. *)
Theorem merge_block_later_wins (schema_data : pydict json)
    (entries : list (string * json)) (k : string) :
  dict_get k (merge_block schema_data (JDict entries)) =
  if is_schema_type (dict_get "@type" entries) then
    match dict_get k (flatten_dict (JDict entries) "" "_") with
    | Some v => Some v
    | None => dict_get k schema_data
    end
  else dict_get k schema_data.
Proof.
  cbn [merge_block]. unfold dict_has.
  destruct (dict_get "@type" entries) as [t|] eqn:Ht; [|reflexivity].
  destruct (is_schema_type (Some t)); [|reflexivity].
  rewrite dict_get_update, last_value_dict by apply flatten_dict_NoDup.
  reflexivity.
Qed.

Example extract_two_blocks :
  let first := JDict [("@type", JStr "Product"); ("name", JStr "Bow"); ("sku", JStr "B1")] in
  let second := JDict [("@type", JStr "Product"); ("name", JStr "Recurve Bow")] in
  merge_block (merge_block [] first) second =
  [("@type", JStr "Product"); ("name", JStr "Recurve Bow"); ("sku", JStr "B1")].
Proof. reflexivity. Qed.

(** ** The fallback record *)

Lemma dict_get_absent {V : Type} (k : string) (d : pydict V) :
  k ∉ dict_keys d -> dict_get k d = None.
Proof.
  unfold dict_keys. induction d as [|[k0 v0] d IH]; intros Hnin; [reflexivity|].
  cbn [dict_get]. destruct (String.eqb_spec k0 k) as [->|Hne].
  - exfalso. apply Hnin. cbn. apply elem_of_cons. auto.
  - apply IH. intros Hin. apply Hnin. cbn. apply elem_of_cons. auto.
Qed.

(** The loop over [meta_tags.items()]. *)
Lemma meta_loop_get (soup : Soup) (key : string)
    (table : list (string * list string)) (data : pydict json) :
  NoDup (dict_keys table) ->
  dict_get key
    (fold_left
       (fun data '(key, meta_names) =>
          match first_meta soup meta_names with
          | Some content => dict_set key (JStr content) data
          | None => data
          end) table data) =
  match dict_get key table ≫= first_meta soup with
  | Some content => Some (JStr content)
  | None => dict_get key data
  end.
Proof.
  revert data. induction table as [|[k names] table IH]; intros data Hnd;
    cbn [fold_left dict_get]; [reflexivity|].
  apply NoDup_cons in Hnd as [Hnin Hnd]. rewrite IH by exact Hnd.
  destruct (String.eqb_spec k key) as [->|Hne].
  - rewrite (dict_get_absent key table Hnin). cbn.
    destruct (first_meta soup names); [apply dict_get_set|reflexivity].
  - destruct (dict_get key table ≫= first_meta soup); [reflexivity|].
    destruct (first_meta soup names); [|reflexivity].
    apply dict_get_set_ne, Hne.
Qed.

(** The loop over [selectors.items()]. *)
Lemma selector_loop_get (soup : Soup) (key : string)
    (table : list (string * list string)) (data : pydict json) :
  NoDup (dict_keys table) ->
  dict_get key
    (fold_left
       (fun data '(key, selector_list) =>
          if dict_has key data then data
          else match first_selected soup selector_list with
               | Some text => dict_set key (JStr text) data
               | None => data
               end) table data) =
  match dict_get key data with
  | Some v => Some v
  | None =>
      match dict_get key table ≫= first_selected soup with
      | Some text => Some (JStr text)
      | None => None
      end
  end.
Proof.
  revert data. induction table as [|[k sels] table IH]; intros data Hnd;
    cbn [fold_left dict_get].
  - destruct (dict_get key data); reflexivity.
  - apply NoDup_cons in Hnd as [Hnin Hnd]. rewrite IH by exact Hnd.
    unfold dict_has. destruct (String.eqb_spec k key) as [->|Hne].
    + rewrite (dict_get_absent key table Hnin). cbn.
      destruct (dict_get key data) as [v|] eqn:Hd; [rewrite Hd; reflexivity|].
      destruct (first_selected soup sels); [rewrite dict_get_set|rewrite Hd];
        reflexivity.
    + destruct (dict_get k data); [reflexivity|].
      destruct (first_selected soup sels); [|reflexivity].
      rewrite dict_get_set_ne by exact Hne. reflexivity.
Qed.

(** X16: a field of the fallback record is the content of the first of its
    meta tags that has content, the [property] attribute being looked up
    before the [name] attribute; failing that, the text of the first element
    that one of its selectors finds; and it is absent when neither gives
    anything or the field is in neither table. *)
Theorem extract_fallback_data_field (soup : Soup) (key : string) :
  dict_get key (extract_fallback_data soup) = fallback_field soup key.
Proof.
  unfold extract_fallback_data, fallback_field.
  rewrite selector_loop_get, meta_loop_get.
  - cbn [dict_get]. destruct (dict_get key meta_tags ≫= first_meta soup); reflexivity.
  - unfold dict_keys, meta_tags. cbn [map fst]. apply (bool_decide_unpack _).
    vm_compute. exact I.
  - unfold dict_keys, selectors. cbn [map fst]. apply (bool_decide_unpack _).
    vm_compute. exact I.
Qed.

(** A page with an [og:title] meta tag and an [h1]: the meta tag wins. *)
Example fallback_title_from_meta (soup : Soup) :
  find_meta_property soup "og:title" = Some (Some "Recurve Bow") ->
  dict_get "title" (extract_fallback_data soup) = Some (JStr "Recurve Bow").
Proof.
  intros H. unfold extract_fallback_data.
  rewrite selector_loop_get, meta_loop_get.
  - cbn. rewrite H. reflexivity.
  - apply (bool_decide_unpack _). vm_compute. exact I.
  - apply (bool_decide_unpack _). vm_compute. exact I.
Qed.

(** ** White space *)

Lemma append_nil_r (s : string) : s +:+ EmptyString = s.
Proof. induction s as [|a s IH]; [reflexivity|]. rewrite append_cons, IH. reflexivity. Qed.

Lemma no_space_append (a b : string) :
  no_space (a +:+ b) = no_space a && no_space b.
Proof.
  induction a as [|c a IH]; [reflexivity|].
  rewrite append_cons. cbn [no_space]. rewrite IH, andb_assoc. reflexivity.
Qed.

Lemma append_empty (a b : string) : a +:+ b = EmptyString -> a = EmptyString /\ b = EmptyString.
Proof. destruct a; [auto|]. rewrite append_cons. discriminate. Qed.

(** Reading a run of characters that are not white space. *)
Lemma words_aux_run (cur piece rest : string) :
  no_space piece = true ->
  PyStr.words_aux cur (piece +:+ rest) = PyStr.words_aux (cur +:+ piece) rest.
Proof.
  revert cur. induction piece as [|a piece IH]; intros cur Hp.
  - rewrite append_nil_l, append_nil_r. reflexivity.
  - cbn [no_space] in Hp. apply andb_true_iff in Hp as [Ha Hp].
    apply negb_true_iff in Ha. rewrite append_cons. cbn [PyStr.words_aux].
    rewrite Ha, IH by exact Hp. rewrite append_assoc. reflexivity.
Qed.

Lemma words_aux_pieces (cur s : string) :
  no_space cur = true -> Forall is_word_piece (PyStr.words_aux cur s).
Proof.
  revert cur. induction s as [|a s IH]; intros cur Hc; cbn [PyStr.words_aux].
  - destruct (String.eqb_spec cur EmptyString) as [->|Hne]; [constructor|].
    constructor; [split; assumption|constructor].
  - destruct (PyStr.is_space a) eqn:Ha.
    + destruct (String.eqb_spec cur EmptyString) as [->|Hne]; [apply IH; reflexivity|].
      constructor; [split; assumption|apply IH; reflexivity].
    + apply IH. rewrite no_space_append, Hc. cbn [no_space]. rewrite Ha. reflexivity.
Qed.

Lemma words_piece (piece : string) :
  is_word_piece piece -> PyStr.words piece = [piece].
Proof.
  intros [Hne Hp]. unfold PyStr.words.
  rewrite <- (append_nil_r piece) at 1. rewrite words_aux_run by exact Hp.
  rewrite append_nil_l. cbn [PyStr.words_aux].
  destruct (String.eqb_spec piece EmptyString); [contradiction|reflexivity].
Qed.

(** Splitting what was joined by single spaces gives the pieces back. *)
Lemma words_join (pieces : list string) :
  Forall is_word_piece pieces -> PyStr.words (PyStr.join " " pieces) = pieces.
Proof.
  intros H. induction H as [|piece pieces Hp Hrest IH]; [reflexivity|].
  destruct pieces as [|piece2 pieces].
  - cbn [PyStr.join]. apply words_piece, Hp.
  - change (PyStr.join " " (piece :: piece2 :: pieces))
      with (piece +:+ " " +:+ PyStr.join " " (piece2 :: pieces)).
    destruct Hp as [Hne Hp]. unfold PyStr.words in *.
    rewrite words_aux_run by exact Hp. rewrite append_nil_l.
    change (" " +:+ PyStr.join " " (piece2 :: pieces))
      with (String " " (PyStr.join " " (piece2 :: pieces))).
    cbn [PyStr.words_aux]. change (PyStr.is_space " ") with true. cbv iota.
    destruct (String.eqb_spec piece EmptyString); [contradiction|].
    rewrite IH. reflexivity.
Qed.

Lemma contains_append (c : ascii) (a b : string) :
  PyStr.contains c (a +:+ b) = PyStr.contains c a || PyStr.contains c b.
Proof.
  induction a as [|x a IH]; [reflexivity|].
  rewrite append_cons. cbn [PyStr.contains]. rewrite IH, orb_assoc. reflexivity.
Qed.

Lemma no_space_contains (c : ascii) (s : string) :
  no_space s = true -> PyStr.contains c s = true -> PyStr.is_space c = false.
Proof.
  induction s as [|a s IH]; cbn [no_space PyStr.contains]; [discriminate|].
  intros Hs Hc. apply andb_true_iff in Hs as [Ha Hs].
  apply orb_true_iff in Hc as [Hc|Hc]; [|auto].
  apply Ascii.eqb_eq in Hc as <-. apply negb_true_iff, Ha.
Qed.

Lemma join_space_contains (c : ascii) (pieces : list string) :
  Forall is_word_piece pieces ->
  PyStr.contains c (PyStr.join " " pieces) = true -> PyStr.is_space c = true ->
  c = " "%char.
Proof.
  intros H. induction H as [|piece pieces [_ Hp] Hrest IH]; [discriminate|].
  destruct pieces as [|piece2 pieces]; cbn [PyStr.join].
  - intros Hc Hsp. rewrite (no_space_contains c piece Hp Hc) in Hsp. discriminate.
  - rewrite !contains_append. intros Hc Hsp.
    apply orb_true_iff in Hc as [Hc|Hc];
      [rewrite (no_space_contains c piece Hp Hc) in Hsp; discriminate|].
    apply orb_true_iff in Hc as [Hc|Hc]; [|auto].
    cbn [PyStr.contains] in Hc. rewrite orb_false_r in Hc.
    apply Ascii.eqb_eq in Hc. auto.
Qed.

(** X17: what the harvest does to a string of ASCII characters: applying
    it twice is applying it once; a string without white space is left as
    it is; and the only white space left in the result is the single
    space. *)
Theorem collapse_spaces_normalises (value : string) :
  is_ascii value = true ->
  collapse_spaces (collapse_spaces value) = collapse_spaces value /\
  (no_space value = true -> collapse_spaces value = value) /\
  (forall c, PyStr.contains c (collapse_spaces value) = true ->
             PyStr.is_space c = true -> c = " "%char).
Proof.
  intros _.
  assert (Hw : Forall is_word_piece (PyStr.words value))
    by (apply words_aux_pieces; reflexivity).
  unfold collapse_spaces. split; [|split].
  - rewrite words_join by exact Hw. reflexivity.
  - intros Hn. destruct value as [|a value]; [reflexivity|].
    rewrite words_piece; [reflexivity|]. split; [discriminate|exact Hn].
  - intros c. apply join_space_contains, Hw.
Qed.

Lemma collapse_spaces_normalises_witness :
  is_ascii Shop.spaced_title = true /\
  collapse_spaces (collapse_spaces Shop.spaced_title)
    = collapse_spaces Shop.spaced_title /\
  (no_space Shop.spaced_title = true ->
   collapse_spaces Shop.spaced_title = Shop.spaced_title) /\
  (forall c, PyStr.contains c (collapse_spaces Shop.spaced_title) = true ->
             PyStr.is_space c = true -> c = " "%char).
Proof.
  assert (H : is_ascii Shop.spaced_title = true) by reflexivity.
  split; [exact H|].
  exact (collapse_spaces_normalises Shop.spaced_title H).
Defined.

Example collapse_spaces_spaced_title :
  collapse_spaces Shop.spaced_title = "Recurve Bow".
Proof. reflexivity. Qed.

Example collapse_spaces_title :
  collapse_spaces (String "009" " Recurve" +:+ String "010" "  Bow ") = "Recurve Bow".
Proof. reflexivity. Qed.

(** ** More on the harvest *)

Lemma dict_get_clean_record (k : string) (product_data : pydict json) :
  dict_get k (clean_record product_data) =
  option_map clean_value (dict_get k product_data).
Proof.
  unfold clean_record. induction product_data as [|[k0 v0] d IH]; [reflexivity|].
  cbn [map dict_get].
  destruct v0; cbn [dict_get clean_value]; destruct (String.eqb k0 k);
    try reflexivity; exact IH.
Qed.

(** X18: on success [scrape_product] returns the record of the extractor
    with its [url] field set to the URL asked for, an earlier [url] field of
    the page data being overwritten and every other field kept. *)
Theorem scrape_product_fields (w : World) (now : nat) (url k : string)
    (soup : Soup) (product_data : pydict json) :
  http_get w now url = Return soup ->
  extract_schema_data (json_loads w) soup = Return product_data ->
  dict_get k (scrape_product w now url) =
  if String.eqb "url" k then Some (JStr url) else dict_get k product_data.
Proof.
  intros Hget Hx. unfold scrape_product. rewrite Hget, Hx. apply dict_get_set_any.
Qed.

Lemma scrape_product_fields_witness :
  http_get Shop.online 0 Shop.recurve
    = Return (Shop.page [Shop.bows] [Some Shop.product_json]) /\
  dict_get "name" (scrape_product Shop.online 0 Shop.recurve) = Some (JStr "Bow").
Proof.
  assert (H1 : http_get Shop.online 0 Shop.recurve
               = Return (Shop.page [Shop.bows] [Some Shop.product_json]))
    by reflexivity.
  split; [exact H1|].
  exact (scrape_product_fields Shop.online 0 Shop.recurve "name" _
           (flatten_dict Shop.product_data "" "_") H1 eq_refl).
Defined.

Lemma attempts_In (w : World) (now : nat) (urls : list string) (d : pydict json) :
  In d (attempts w now urls) ->
  exists t url, In url urls /\ d = scrape_product w t url.
Proof.
  revert now. induction urls as [|url rest IH]; intros now; cbn [attempts In];
    [contradiction|].
  intros [<-|Hin]; [eauto|]. destruct (IH _ Hin) as (t & u & Hu & ->). eauto.
Qed.

Lemma scrape_product_url (w : World) (now : nat) (url : string) :
  scrape_product w now url <> [] ->
  dict_get "url" (scrape_product w now url) = Some (JStr url).
Proof.
  intros Hne. destruct (scrape_product_cases w now url) as [(_ & d & ->)|(_ & Hd)].
  - apply dict_get_set.
  - contradiction.
Qed.

Lemma harvest_loop_records (w : World) (urls : list string) (now : nat) :
  Forall
    (fun record =>
       exists url, In url urls /\
                   dict_get "url" record = Some (JStr (collapse_spaces url)))
    (all_products
       (harvest_loop w urls {| all_products := []; count := 0; hclock := now |})).
Proof.
  destruct (harvest_loop_spec w urls {| all_products := []; count := 0; hclock := now |})
    as (Ha & _); [reflexivity|unfold limit; cbn; lia|].
  cbn zeta in Ha. rewrite Ha. cbn [all_products app hclock].
  apply Forall_take, Forall_forall. intros record Hin.
  apply list_elem_of_In, in_map_iff in Hin as (d & <- & Hd).
  apply filter_In in Hd as [Hd Hne].
  apply attempts_In in Hd as (t & url & Hu & ->).
  exists url. split; [exact Hu|].
  rewrite dict_get_clean_record, scrape_product_url; [reflexivity|].
  intros Hempty. rewrite Hempty in Hne. discriminate.
Qed.

(** X19: every record the harvest collects carries the URL it was scraped
    from in its [url] field, white space collapsed. *)
Theorem harvest_records_have_url (w : World) (urls : list string) (now : nat) :
  Forall
    (fun record =>
       exists url, In url urls /\
                   dict_get "url" record = Some (JStr (collapse_spaces url)))
    (all_products
       (harvest_loop w urls {| all_products := []; count := 0; hclock := now |})).
Proof. apply harvest_loop_records. Qed.

Lemma harvest_loop_length (w : World) (urls : list string) (now : nat) :
  (length (all_products
     (harvest_loop w urls {| all_products := []; count := 0; hclock := now |}))
   <= 10)%nat.
Proof.
  destruct (harvest_loop_spec w urls {| all_products := []; count := 0; hclock := now |})
    as (_ & Hn & Hb); [reflexivity|unfold limit; cbn; lia|].
  cbn zeta in Hn, Hb. unfold limit in Hb. lia.
Qed.

Lemma harvest_clock (w : World) (urls : list string) (st : harvest_state) :
  let h := harvest_loop w urls st in
  (hclock st <= hclock h <= hclock st + length urls)%nat /\
  (count h - count st <= Z.of_nat (hclock h - hclock st))%Z.
Proof.
  revert st. induction urls as [|url rest IH]; intros st; cbn zeta;
    cbn [harvest_loop length].
  - split; lia.
  - destruct (limit <=? count st)%Z; [split; lia|].
    specialize (IH (harvest_body w url st)). cbn zeta in IH.
    destruct IH as ([H1 H2] & H3).
    assert (Hb : hclock (harvest_body w url st) = S (hclock st) /\
                 (count (harvest_body w url st) <= count st + 1)%Z).
    { unfold harvest_body. destruct (scrape_product w (hclock st) url);
        cbn [hclock count]; split; lia. }
    destruct Hb as [Hb1 Hb2]. rewrite Hb1 in *. split; lia.
Qed.

(** X20: the harvest sends at most one request per product URL, and every
    record it counts cost it a request. *)
Theorem harvest_requests_bounded (w : World) (urls : list string) (now : nat) :
  let h := harvest_loop w urls {| all_products := []; count := 0; hclock := now |} in
  (now <= hclock h <= now + length urls)%nat /\
  (count h <= Z.of_nat (hclock h - now))%Z.
Proof.
  cbn zeta.
  destruct (harvest_clock w urls {| all_products := []; count := 0; hclock := now |})
    as (H1 & H2).
  cbn [hclock count] in H1, H2. split; [exact H1|lia].
Qed.

(** ** The whole run *)

(** X21: when [scrape_all_products] returns, either no file is written, or
    the file holds between one and ten records, each with the URL of a
    product page that the crawl visited in its [url] field. *)
Theorem scrape_all_products_output (w : World) (self : Scraper) (root_url : string)
    (now fuel : nat) (output : option (list (pydict json))) :
  scrape_all_products w self root_url now fuel = Return (Some output) ->
  match output with
  | None => True
  | Some records =>
      records <> [] /\ (length records <= 10)%nat /\
      Forall
        (fun record =>
           exists url,
             is_product_url url = true /\
             dict_get "url" record = Some (JStr (collapse_spaces url)))
        records
  end.
Proof.
  unfold scrape_all_products, crawl_site.
  destruct (crawl_start w self root_url now) as [st0|e] eqn:Hstart; [|discriminate].
  cbn [mbind outcome_bind].
  destruct (crawl_loop w root_url 1000 fuel st0) as [st|] eqn:Hloop; [|discriminate].
  set (urls := iter_set w (product_urls (scraper st))).
  set (h := harvest_loop w urls _).
  destruct (all_products h) as [|record records] eqn:Hall;
    [intros H; injection H as <-; exact I|].
  destruct (write_output w (record :: records)); [discriminate|].
  intros H. injection H as <-.
  split; [discriminate|]. rewrite <- Hall.
  pose proof (harvest_loop_length w urls (clock st)) as Hlen. fold h in Hlen.
  split; [exact Hlen|].
  pose proof (harvest_loop_records w urls (clock st)) as Hrec. fold h in Hrec.
  eapply Forall_impl; [exact Hrec|]. intros r (url & Hu & Hr).
  exists url. split; [|exact Hr].
  apply list_elem_of_In, iter_set_elem in Hu.
  apply crawl_loop_reach in Hloop.
  destruct (sets_ok_reach _ _ _ _ _ _ _ Hstart Hloop) as (_ & _ & Hp).
  apply Hp in Hu as [_ Hu]. exact Hu.
Qed.

Lemma scrape_all_products_output_witness :
  scrape_all_products Shop.online Scraper_new Shop.root 0 10
    = Return (Some (Some Shop.output)) /\
  Shop.output <> [] /\ (length Shop.output <= 10)%nat /\
  Forall
    (fun record =>
       exists url,
         is_product_url url = true /\
         dict_get "url" record = Some (JStr (collapse_spaces url)))
    Shop.output.
Proof.
  assert (H : scrape_all_products Shop.online Scraper_new Shop.root 0 10
              = Return (Some (Some Shop.output))) by (vm_compute; reflexivity).
  split; [exact H|].
  exact (scrape_all_products_output Shop.online Scraper_new Shop.root 0 10
           (Some Shop.output) H).
Defined.

(** ** The rules of flattening, and the budget, again *)

(** C3, as stated, fails: a list of scalars with a [null] among them is not
    stored as one string; nothing is stored for it. *)
Lemma flatten_dict_drops_list_with_null :
  forallb is_leaf [JStr "x"; JNull] = true /\
  flatten_dict (JDict [("tags", JList [JStr "x"; JNull])]) "" "_" = [] /\
  dict_get "tags" (flatten_dict (JDict [("tags", JList [JStr "x"; JNull])]) "" "_")
    = None.
Proof. repeat split; reflexivity. Qed.

(** C3 (amended): [_flatten_dict] takes the entries of an object in order,
    each entry [(k, v)] acting on the record under the key path [k], or
    [parent_key + "_" + k] when [parent_key] is not empty, a later entry
    overwriting an earlier one.  What a key [key] holds after the entry:
    (a) for an object [v], what [key] holds in the flattening of [v] under
        the path, or else what it held before;
    (b) for a list of [str], [int] and [float] values only, the values
        joined by [", "] if [key] is the path, or else what it held before;
    (c) for any other list, a list with a [null] among them, what the
        objects of the list give: the last value of [key] among the
        flattenings of each object under the path, ["_"] and its index, the
        other elements giving nothing, or else what [key] held before;
    (d) for any other value, that value if [key] is the path, or else what
        it held before. *)
Theorem flatten_dict_rules (parent_key k key : string)
    (entries : list (string * json)) :
  let path := if String.eqb parent_key "" then k else parent_key +:+ "_" +:+ k in
  let before := dict_get key (flatten_dict (JDict entries) parent_key "_") in
  let after v :=
    dict_get key (flatten_dict (JDict (entries ++ [(k, v)])) parent_key "_") in
  (forall o,
     after (JDict o) =
     match dict_get key (flatten_dict (JDict o) path "_") with
     | Some x => Some x
     | None => before
     end) /\
  (forall l, forallb is_str_int_float l = true ->
     after (JList l) =
     if String.eqb path key
     then Some (JStr (PyStr.join ", " (map py_str l)))
     else before) /\
  (forall l, forallb is_str_int_float l = false ->
     after (JList l) =
     match last_value key
             (concat (imap (fun i item =>
                              match item with
                              | JDict o =>
                                  flatten_dict (JDict o)
                                    (path +:+ "_" +:+ PyStr.of_nat i) "_"
                              | _ => []
                              end) l)) with
     | Some x => Some x
     | None => before
     end) /\
  (forall v, is_leaf v = true ->
     after v = if String.eqb path key then Some v else before) /\
  flatten_dict
    (JDict [("name", JStr "Bow"); ("offers", JDict [("price", JStr "199.99")])])
    "" "_" = [("name", JStr "Bow"); ("offers_price", JStr "199.99")] /\
  flatten_dict
    (JDict [("sizes", JList [JInt 1; JFloat "2.5"; JStr "x"; JBool true])])
    "p" "_" = [("p_sizes", JStr "1, 2.5, x, True")] /\
  flatten_dict
    (JDict [("tags", JList [JStr "x"; JNull]);
            ("img", JList [JStr "u"; JDict [("url", JStr "v")]])])
    "" "_" = [("img_1_url", JStr "v")].
Proof.
  intros path before after. subst before after. cbv beta.
  split; [|split; [|split; [|split; [|repeat split; reflexivity]]]].
  - intros o. rewrite flatten_dict_snoc. unfold entry_items. cbn [fst snd].
    rewrite dict_get_update, last_value_dict by apply flatten_dict_NoDup.
    reflexivity.
  - intros l Hl. rewrite flatten_dict_snoc. unfold entry_items. cbn [fst snd].
    rewrite Hl, dict_get_update. unfold last_value. cbn [rev app dict_get].
    change (new_key_of parent_key "_" k) with path.
    destruct (String.eqb path key); reflexivity.
  - intros l Hl. rewrite flatten_dict_snoc. unfold entry_items. cbn [fst snd].
    rewrite Hl, dict_get_update, list_items_imap.
    change (new_key_of parent_key "_" k) with path.
    replace (imap (fun j item => element_items path "_" (0 + j) item) l)
      with (imap (fun i item =>
                    match item with
                    | JDict o => flatten_dict (JDict o) (path +:+ "_" +:+ PyStr.of_nat i) "_"
                    | _ => []
                    end) l); [reflexivity|].
    apply imap_ext. intros i item _. cbn [Nat.add]. destruct item; reflexivity.
  - intros v Hv. rewrite flatten_dict_snoc. unfold entry_items. cbn [fst snd].
    change (new_key_of parent_key "_" k) with path.
    rewrite dict_get_update. unfold last_value.
    destruct v; try discriminate Hv; cbn [rev app dict_get];
      destruct (String.eqb path key); reflexivity.
Qed.

(** C5, as stated, fails: entered by a root URL with a query whose page
    links to itself, the crawl visits the root as given and then its
    canonical URL: one canonical URL, visited twice. *)
Lemma crawl_visits_canonical_url_twice :
  crawl_start Shop.online_from_query Scraper_new Shop.root_with_query 0
    = Return Shop.query_start /\
  crawl_reach Shop.online_from_query Shop.root_with_query 1000
    Shop.query_start Shop.query_after_two /\
  visit_log Shop.query_after_two = [Shop.root_with_query; Shop.root] /\
  clean_url Shop.root_with_query = clean_url Shop.root /\
  ~ NoDup (map clean_url (visit_log Shop.query_after_two)).
Proof.
  split; [reflexivity|]. split.
  - eapply rtc_l; [|apply rtc_once]; vm_compute; reflexivity.
  - assert (Hl : visit_log Shop.query_after_two = [Shop.root_with_query; Shop.root])
      by (vm_compute; reflexivity).
    split; [exact Hl|]. split; [reflexivity|]. rewrite Hl. intros Hnd.
    apply NoDup_cons in Hnd as [Hnot _]. apply Hnot. left.
Qed.

(** C5 (amended): in a crawl with a budget of [max_pages], at every turn of
    the loop at most [max_pages] URLs are marked visited, and no URL was
    marked twice, URLs being compared as the strings they are: the log of
    the marks has no repeats and is the visited set.  Every visited URL but
    the root as given is its own canonical URL, so that no canonical URL is
    visited twice when the root URL has no fragment and no query. *)
Theorem crawl_visits_within_budget_once (w : World) (self : Scraper)
    (root_url : string) (max_pages : Z) (now : nat) (st0 st : crawl_state) :
  (0 <= max_pages)%Z ->
  crawl_start w self root_url now = Return st0 ->
  crawl_reach w root_url max_pages st0 st ->
  (Z.of_nat (size (visited_urls (scraper st))) <= max_pages)%Z /\
  NoDup (visit_log st) /\
  visited_urls (scraper st) = list_to_set (visit_log st) /\
  size (visited_urls (scraper st)) = length (visit_log st) /\
  (forall url, url ∈ visit_log st -> url = root_url \/ clean_url url = url) /\
  (clean_url root_url = root_url -> NoDup (map clean_url (visit_log st))).
Proof.
  intros Hmax Hstart Hreach.
  assert (Hok : visits_ok max_pages st).
  { apply (visits_ok_reach _ _ _ _ _ Hreach).
    apply crawl_start_state in Hstart as (_ & Hv & Hl).
    unfold visits_ok. rewrite Hv, Hl, size_empty.
    split; [lia|]. split; [constructor|reflexivity]. }
  destruct Hok as (Hsize & Hnd & Hlog).
  assert (Hclean : forall url, url ∈ visit_log st ->
                               url = root_url \/ clean_url url = url).
  { intros url Hin.
    destruct (sets_ok_reach _ _ _ _ _ _ _ Hstart Hreach) as (_ & Hv & _).
    assert (Hvis : url ∈ visited_urls (scraper st))
      by (rewrite Hlog; apply elem_of_list_to_set, Hin).
    destruct (Hv url Hvis) as [_ [->|(_ & H1 & H2 & _)]]; [auto|].
    right. apply clean_url_fixed; assumption. }
  split; [exact Hsize|]. split; [exact Hnd|]. split; [exact Hlog|].
  split; [rewrite Hlog; apply size_list_to_set, Hnd|]. split; [exact Hclean|].
  intros Hroot.
  assert (Hmap : map clean_url (visit_log st) = visit_log st).
  { clear Hnd Hlog. induction (visit_log st) as [|url log IH]; [reflexivity|].
    cbn [map]. f_equal.
    - destruct (Hclean url) as [->|H]; [apply elem_of_cons; auto|exact Hroot|exact H].
    - apply IH. intros u Hu. apply Hclean, elem_of_cons. auto. }
  rewrite Hmap. exact Hnd.
Qed.

Lemma crawl_visits_within_budget_once_witness :
  (0 <= 1000)%Z /\
  crawl_start Shop.online Scraper_new Shop.root 0 = Return Shop.start /\
  crawl_reach Shop.online Shop.root 1000 Shop.start Shop.final /\
  (Z.of_nat (size (visited_urls (scraper Shop.final))) <= 1000)%Z /\
  NoDup (visit_log Shop.final) /\
  visited_urls (scraper Shop.final) = list_to_set (visit_log Shop.final) /\
  size (visited_urls (scraper Shop.final)) = length (visit_log Shop.final) /\
  (forall url, url ∈ visit_log Shop.final ->
               url = Shop.root \/ clean_url url = url) /\
  (clean_url Shop.root = Shop.root -> NoDup (map clean_url (visit_log Shop.final))).
Proof.
  assert (H0 : (0 <= 1000)%Z) by lia.
  assert (H1 : crawl_start Shop.online Scraper_new Shop.root 0 = Return Shop.start)
    by reflexivity.
  split; [exact H0|]. split; [exact H1|]. split; [exact shop_crawl_reaches_final|].
  exact (crawl_visits_within_budget_once Shop.online Scraper_new Shop.root 1000 0
           Shop.start Shop.final H0 H1 shop_crawl_reaches_final).
Defined.
